(** * go.strava: the OAuth token exchange of [oauth.go]

    A shallow embedding of [oauth.go] (package [strava]) and of the parts of
    the Go standard library it calls: [fmt.Sprintf] for the verbs the file
    uses, [encoding/json.Unmarshal] into the structs the file decodes,
    [net/http]'s [Client.PostForm] and [Request.FormValue].

    Go strings and byte slices are [string] (a sequence of 8-bit [ascii]
    bytes); Go's [int] and [int64] are [Z]; [url.Values] is a finite map from
    keys to lists of values. *)

From Stdlib Require Import ZArith String Ascii List Lia Bool DecimalString DecimalZ
  DecimalPos.
From stdpp Require Import gmap strings list fin_maps.

Set Warnings "-register-all".
#[local] Arguments String.append !_ _ : simpl nomatch.

Local Open Scope Z_scope.

(** ** Strings *)

Module Str.

(** [occ p s]: the number of positions of [s] at which [p] occurs. *)
Fixpoint occ (p s : string) : nat :=
  match s with
  | EmptyString => if String.prefix p EmptyString then 1%nat else 0%nat
  | String _ s' => ((if String.prefix p s then 1 else 0) + occ p s')%nat
  end.

(** [contains p s]: Go's [strings.Contains(s, p)]. *)
Definition contains (p s : string) : bool := negb (Nat.eqb (occ p s) 0).

(** [mem c s]: the byte [c] occurs in [s]. *)
Fixpoint mem (c : ascii) (s : string) : bool :=
  match s with
  | EmptyString => false
  | String d s' => if Ascii.eqb c d then true else mem c s'
  end.

(** [all f s]: every byte of [s] satisfies [f]. *)
Fixpoint all (f : ascii -> bool) (s : string) : bool :=
  match s with
  | EmptyString => true
  | String d s' => f d && all f s'
  end.

Definition is_digit (c : ascii) : bool :=
  let n := nat_of_ascii c in (48 <=? n)%nat && (n <=? 57)%nat.

Fixpoint take (n : nat) (s : string) : string :=
  match n, s with
  | S n', String c s' => String c (take n' s')
  | _, _ => EmptyString
  end.

Fixpoint drop (n : nat) (s : string) : string :=
  match n, s with
  | S n', String _ s' => drop n' s'
  | _, _ => s
  end.

(** The bytes of a decimal numeral: digits and the minus sign. *)
Definition is_itoa_byte (c : ascii) : bool := is_digit c || Ascii.eqb c "-".

(** [p] has none of the bytes that separate the parts of a query. *)
Definition free_of_separators (p : string) : bool :=
  negb (mem "/" p) && negb (mem "?" p) && negb (mem "=" p) && negb (mem "&" p).

(** The head byte of [s] is [c]. *)
Definition starts_with (c : ascii) (s : string) : bool :=
  match s with
  | String d _ => Ascii.eqb c d
  | EmptyString => false
  end.

End Str.

(** ** [fmt.Sprintf]

    The operands the file formats: an [int] ([ClientId]), a [string], and a
    [Permission] (a defined string type without a [String] method). *)

Module Fmt.

Inductive arg :=
| Int (n : Z)
| Str (s : string)
| Perm (s : string).

(** [strconv]'s base-10 rendering of a signed integer: what [%d] and [%v]
    print for an [int]. *)
Definition itoa (n : Z) : string := NilZero.string_of_int (Z.to_int n).

Definition type_name (a : arg) : string :=
  match a with
  | Int _ => "int"
  | Str _ => "string"
  | Perm _ => "strava.Permission"
  end.

(** The operand under [%v]. *)
Definition default_format (a : arg) : string :=
  match a with
  | Int n => itoa n
  | Str s | Perm s => s
  end.

(** One verb applied to one operand.  [%s] prints strings, [%d] integers,
    [%v] both; a verb that does not fit its operand prints Go's
    [%!verb(type=value)].  A directive is a percent sign and one verb byte:
    the file uses the verbs [s], [d] and [v] and no flag, width or
    precision, and the other verbs and these are not interpreted. *)
Definition format_verb (verb : ascii) (a : arg) : string :=
  let bad := "%!" +:+ String verb ("(" +:+ type_name a +:+ "=" +:+ default_format a +:+ ")") in
  match verb, a with
  | "v"%char, _ => default_format a
  | "d"%char, Int n => itoa n
  | "s"%char, (Str s | Perm s) => s
  | _, _ => bad
  end.

Fixpoint extra (args : list arg) : string :=
  match args with
  | [] => ""
  | [a] => type_name a +:+ "=" +:+ default_format a
  | a :: rest => type_name a +:+ "=" +:+ default_format a +:+ ", " +:+ extra rest
  end.

(** Operands left over when the format is used up. *)
Definition finish (args : list arg) : string :=
  match args with
  | [] => ""
  | _ => "%!(EXTRA " +:+ extra args +:+ ")"
  end.

(** [fmt.Sprintf(format, args...)]: bytes are copied up to a [%]; [%%]
    prints a percent sign; a verb consumes the next operand, or prints
    [%!verb(MISSING)] when none is left; operands left over at the end are
    reported as [%!(EXTRA ...)]; a lone [%] at the end prints
    [%!(NOVERB)]. *)
Fixpoint Sprintf (format : string) (args : list arg) : string :=
  match format with
  | EmptyString => finish args
  | String "%"%char EmptyString => "%!(NOVERB)" +:+ finish args
  | String "%"%char (String "%"%char rest) => String "%"%char (Sprintf rest args)
  | String "%"%char (String verb rest) =>
      match args with
      | [] => "%!" +:+ String verb "(MISSING)" +:+ Sprintf rest []
      | a :: args' => format_verb verb a +:+ Sprintf rest args'
      end
  | String c rest => String c (Sprintf rest args)
  end.

End Fmt.

(** ** [encoding/json]

    [Unmarshal] first checks that the whole input is one valid JSON text and
    only then decodes it into the destination, guided by the destination's
    type.  The text is read here into a tree, which keeps the members of an
    object in input order, repeated keys included. *)

Module Json.

(** Strings hold their unquoted bytes, numbers their literal text. *)
Inductive value :=
| JNull
| JBool (b : bool)
| JNumber (lit : string)
| JString (s : string)
| JArray (elems : list value)
| JObject (members : list (string * value)).

(** The errors [Unmarshal] returns: a [*SyntaxError]; an
    [*UnmarshalTypeError] with its [Value] description; the error of a
    type's own [UnmarshalJSON]. *)
Inductive error :=
| SyntaxError
| UnmarshalTypeError (Value : string)
| UnmarshalerError (msg : string).

(** *** Scanner *)

Inductive scan (A : Type) :=
| Scanned (a : A) (rest : string)
| Invalid
| Exhausted.
Arguments Scanned {A} a rest.
Arguments Invalid {A}.
Arguments Exhausted {A}.

Definition dquote : ascii := ascii_of_nat 34.
Definition backslash : ascii := ascii_of_nat 92.

Definition byte (c : ascii) : N := N_of_ascii c.
Definition chr (n : N) : ascii := ascii_of_N n.

Definition is_space (c : ascii) : bool :=
  let n := byte c in
  (n =? 32)%N || (n =? 9)%N || (n =? 13)%N || (n =? 10)%N.

Fixpoint skip_space (s : string) : string :=
  match s with
  | String c r => if is_space c then skip_space r else s
  | EmptyString => EmptyString
  end.

Fixpoint strip_prefix (p s : string) : option string :=
  match p, s with
  | EmptyString, _ => Some s
  | String a p', String b s' => if Ascii.eqb a b then strip_prefix p' s' else None
  | String _ _, EmptyString => None
  end.

(** The longest run of decimal digits at the head of [s], and what
    follows it. *)
Fixpoint digits (s : string) : string * string :=
  match s with
  | String c r =>
      if Str.is_digit c then let (d, r') := digits r in (String c d, r') else (EmptyString, s)
  | EmptyString => (EmptyString, EmptyString)
  end.

Definition scan_int (s : string) : option (string * string) :=
  match s with
  | String c r =>
      if Ascii.eqb c "0" then Some ("0"%string, r)
      else if Str.is_digit c then let (d, r') := digits r in Some (String c d, r')
      else None
  | EmptyString => None
  end.

(** A byte of [set] at the head of [s], split off. *)
Definition one_of (set : string) (s : string) : string * string :=
  match s with
  | String c r => if Str.mem c set then (String c EmptyString, r) else (EmptyString, s)
  | EmptyString => (EmptyString, s)
  end.

Definition scan_frac (s : string) : option (string * string) :=
  match one_of "." s with
  | (EmptyString, _) => Some (EmptyString, s)
  | (dot, r) =>
      match digits r with
      | (EmptyString, _) => None
      | (d, r') => Some (dot +:+ d, r')
      end
  end.

Definition scan_exp (s : string) : option (string * string) :=
  match one_of "eE" s with
  | (EmptyString, _) => Some (EmptyString, s)
  | (e, r) =>
      let (sign, r1) := one_of "+-" r in
      match digits r1 with
      | (EmptyString, _) => None
      | (d, r') => Some (e +:+ sign +:+ d, r')
      end
  end.

(** A number literal: an optional minus sign; [0], or a non-zero digit
    and more digits; an optional fraction, a dot and at least one digit;
    an optional exponent, [e] or [E], an optional sign and at least one
    digit. *)
Definition scan_number (s : string) : option (string * string) :=
  let (sign, s0) := one_of "-" s in
  match scan_int s0 with
  | None => None
  | Some (i, s1) =>
      match scan_frac s1 with
      | None => None
      | Some (f, s2) =>
          match scan_exp s2 with
          | None => None
          | Some (e, s3) => Some (sign +:+ i +:+ f +:+ e, s3)
          end
      end
  end.

Definition is_hex (c : ascii) : bool :=
  let n := byte c in
  ((48 <=? n) && (n <=? 57) || (97 <=? n) && (n <=? 102) || (65 <=? n) && (n <=? 70))%N.

Definition is_simple_escape (c : ascii) : bool :=
  Str.mem c "bfnrt/" || Ascii.eqb c backslash || Ascii.eqb c dquote.

(** The bytes of a string literal after its opening quote, up to the
    closing quote, escapes still in place; [None] when the literal is not
    closed, holds a control byte or a bad escape. *)
Fixpoint scan_string (s : string) : option (string * string) :=
  match s with
  | EmptyString => None
  | String c r =>
      if Ascii.eqb c dquote then Some (EmptyString, r)
      else if Ascii.eqb c backslash then
        match r with
        | String e r1 =>
            if is_simple_escape e then
              match scan_string r1 with
              | Some (raw, rest) => Some (String c (String e raw), rest)
              | None => None
              end
            else if Ascii.eqb e "u" then
              match r1 with
              | String h1 (String h2 (String h3 (String h4 r2))) =>
                  if is_hex h1 && is_hex h2 && is_hex h3 && is_hex h4 then
                    match scan_string r2 with
                    | Some (raw, rest) =>
                        Some (String c (String e (String h1 (String h2 (String h3 (String h4 raw))))), rest)
                    | None => None
                    end
                  else None
              | _ => None
              end
            else None
        | EmptyString => None
        end
      else if (byte c <? 32)%N then None
      else
        match scan_string r with
        | Some (raw, rest) => Some (String c raw, rest)
        | None => None
        end
  end.

(** *** Unquoting

    [utf8.DecodeRune] at the head of [s]: the length of the well-formed
    UTF-8 sequence there, [0] when there is none. *)
Definition is_cont (c : ascii) : bool := ((128 <=? byte c) && (byte c <=? 191))%N.

Definition in_range (lo hi : N) (c : ascii) : bool := ((lo <=? byte c) && (byte c <=? hi))%N.

Definition utf8_size (s : string) : nat :=
  match s with
  | EmptyString => 0
  | String c0 r =>
      let b0 := byte c0 in
      if (b0 <? 128)%N then 1
      else if (b0 <? 194)%N then 0
      else if (b0 <? 224)%N then
        match r with
        | String c1 _ => if is_cont c1 then 2 else 0
        | _ => 0
        end
      else if (b0 <? 240)%N then
        match r with
        | String c1 (String c2 _) =>
            let lo := if (b0 =? 224)%N then 160%N else 128%N in
            let hi := if (b0 =? 237)%N then 159%N else 191%N in
            if in_range lo hi c1 && is_cont c2 then 3 else 0
        | _ => 0
        end
      else if (b0 <? 245)%N then
        match r with
        | String c1 (String c2 (String c3 _)) =>
            let lo := if (b0 =? 240)%N then 144%N else 128%N in
            let hi := if (b0 =? 244)%N then 143%N else 191%N in
            if in_range lo hi c1 && is_cont c2 && is_cont c3 then 4 else 0
        | _ => 0
        end
      else 0
  end%nat.

(** U+FFFD, [unicode.ReplacementChar]. *)
Definition replacement : N := 65533.

Definition is_surrogate (r : N) : bool := ((55296 <=? r) && (r <? 57344))%N.

(** [utf8.EncodeRune]. *)
Definition encode_rune (r : N) : string :=
  let r := if is_surrogate r || (1114111 <? r)%N then replacement else r in
  let low6 (n : N) : ascii := chr (128 + n mod 64)%N in
  if (r <? 128)%N then String (chr r) EmptyString
  else if (r <? 2048)%N then
    String (chr (192 + r / 64)%N) (String (low6 r) EmptyString)
  else if (r <? 65536)%N then
    String (chr (224 + r / 4096)%N) (String (low6 (r / 64)%N) (String (low6 r) EmptyString))
  else
    String (chr (240 + r / 262144)%N)
      (String (low6 (r / 4096)%N) (String (low6 (r / 64)%N) (String (low6 r) EmptyString))).

Definition hex_val (c : ascii) : N :=
  let n := byte c in
  (if n <? 58 then n - 48 else if n <? 71 then n - 55 else n - 87)%N.

(** [getu4]: the code unit of a [\uXXXX] escape at the head of [s]. *)
Definition getu4 (s : string) : option (N * string) :=
  match s with
  | String b (String u (String h1 (String h2 (String h3 (String h4 rest))))) =>
      if Ascii.eqb b backslash && Ascii.eqb u "u"
         && is_hex h1 && is_hex h2 && is_hex h3 && is_hex h4
      then Some (((hex_val h1 * 16 + hex_val h2) * 16 + hex_val h3) * 16 + hex_val h4, rest)%N
      else None
  | _ => None
  end.

(** [utf16.DecodeRune]. *)
Definition utf16_decode (r1 r2 : N) : N :=
  if ((55296 <=? r1) && (r1 <? 56320) && (56320 <=? r2) && (r2 <? 57344))%N
  then ((r1 - 55296) * 1024 + (r2 - 56320) + 65536)%N
  else replacement.

Definition escape_byte (e : ascii) : ascii :=
  match e with
  | "b"%char => chr 8
  | "f"%char => chr 12
  | "n"%char => chr 10
  | "r"%char => chr 13
  | "t"%char => chr 9
  | _ => e
  end.

(** [unquote] of the scanned bytes of a literal: escapes are replaced,
    [\u] escapes become UTF-8 (a surrogate pair one rune, a lone surrogate
    U+FFFD), and every byte that does not start a well-formed UTF-8
    sequence becomes U+FFFD. *)
Fixpoint unquote_bytes (fuel : nat) (s : string) : string :=
  match fuel with
  | O => EmptyString
  | S fuel' =>
      match s with
      | EmptyString => EmptyString
      | String c r =>
          if Ascii.eqb c backslash then
            match r with
            | EmptyString => EmptyString
            | String e r1 =>
                if Ascii.eqb e "u" then
                  match getu4 s with
                  | Some (rr, r2) =>
                      if is_surrogate rr then
                        match getu4 r2 with
                        | Some (rr1, r3) =>
                            if (utf16_decode rr rr1 =? replacement)%N
                            then encode_rune replacement +:+ unquote_bytes fuel' r2
                            else encode_rune (utf16_decode rr rr1) +:+ unquote_bytes fuel' r3
                        | None => encode_rune replacement +:+ unquote_bytes fuel' r2
                        end
                      else encode_rune rr +:+ unquote_bytes fuel' r2
                  | None => EmptyString
                  end
                else String (escape_byte e) (unquote_bytes fuel' r1)
            end
          else
            match utf8_size s with
            | O => encode_rune replacement +:+ unquote_bytes fuel' r
            | n => Str.take n s +:+ unquote_bytes fuel' (Str.drop n s)
            end
      end
  end.

Definition unquote (raw : string) : string := unquote_bytes (String.length raw) raw.

(** *** Values

    [maxNestingDepth]: the scanner refuses to open more arrays and
    objects inside one another than this. *)
Definition maxNestingDepth : N := 10000.

Definition scan_literal (s : string) : scan value :=
  if Str.starts_with "t" s then
    match strip_prefix "true" s with Some r => Scanned (JBool true) r | None => Invalid end
  else if Str.starts_with "f" s then
    match strip_prefix "false" s with Some r => Scanned (JBool false) r | None => Invalid end
  else if Str.starts_with "n" s then
    match strip_prefix "null" s with Some r => Scanned JNull r | None => Invalid end
  else
    match scan_number s with Some (lit, r) => Scanned (JNumber lit) r | None => Invalid end.

(** [parse_value] reads one value at the head of [s]; [parse_elements]
    the elements of an array up to its closing bracket, [parse_members]
    the members of an object up to its closing brace, both from the first
    element on.  [depth] counts the arrays and objects open around [s]. *)
Fixpoint parse_value (fuel : nat) (depth : N) (s : string) {struct fuel} : scan value :=
  match fuel with
  | O => Exhausted
  | S fuel' =>
      match s with
      | EmptyString => Invalid
      | String c r =>
          if Ascii.eqb c "[" then
            if (maxNestingDepth <? depth + 1)%N then Invalid
            else if Str.starts_with "]" (skip_space r) then Scanned (JArray []) (Str.drop 1 (skip_space r))
            else
              match parse_elements fuel' (depth + 1)%N (skip_space r) with
              | Scanned vs rest => Scanned (JArray vs) rest
              | Invalid => Invalid
              | Exhausted => Exhausted
              end
          else if Ascii.eqb c "{" then
            if (maxNestingDepth <? depth + 1)%N then Invalid
            else if Str.starts_with "}" (skip_space r) then Scanned (JObject []) (Str.drop 1 (skip_space r))
            else
              match parse_members fuel' (depth + 1)%N (skip_space r) with
              | Scanned ms rest => Scanned (JObject ms) rest
              | Invalid => Invalid
              | Exhausted => Exhausted
              end
          else if Ascii.eqb c dquote then
            match scan_string r with
            | Some (raw, rest) => Scanned (JString (unquote raw)) rest
            | None => Invalid
            end
          else scan_literal s
      end
  end
with parse_elements (fuel : nat) (depth : N) (s : string) {struct fuel} : scan (list value) :=
  match fuel with
  | O => Exhausted
  | S fuel' =>
      match parse_value fuel' depth s with
      | Scanned v r =>
          if Str.starts_with "," (skip_space r) then
            match parse_elements fuel' depth (skip_space (Str.drop 1 (skip_space r))) with
            | Scanned vs rest => Scanned (v :: vs) rest
            | Invalid => Invalid
            | Exhausted => Exhausted
            end
          else if Str.starts_with "]" (skip_space r) then Scanned [v] (Str.drop 1 (skip_space r))
          else Invalid
      | Invalid => Invalid
      | Exhausted => Exhausted
      end
  end
with parse_members (fuel : nat) (depth : N) (s : string) {struct fuel}
  : scan (list (string * value)) :=
  match fuel with
  | O => Exhausted
  | S fuel' =>
      if Str.starts_with dquote s then
        match scan_string (Str.drop 1 s) with
        | Some (raw, r1) =>
            if Str.starts_with ":" (skip_space r1) then
              match parse_value fuel' depth (skip_space (Str.drop 1 (skip_space r1))) with
              | Scanned v r3 =>
                  if Str.starts_with "," (skip_space r3) then
                    match parse_members fuel' depth (skip_space (Str.drop 1 (skip_space r3))) with
                    | Scanned ms rest => Scanned ((unquote raw, v) :: ms) rest
                    | Invalid => Invalid
                    | Exhausted => Exhausted
                    end
                  else if Str.starts_with "}" (skip_space r3)
                  then Scanned [(unquote raw, v)] (Str.drop 1 (skip_space r3))
                  else Invalid
              | Invalid => Invalid
              | Exhausted => Exhausted
              end
            else Invalid
        | None => Invalid
        end
      else Invalid
  end.

(** Each level of the recursion reads at least one byte every second
    call, so twice the length of the input is fuel enough. *)
Definition fuel_for (s : string) : nat := 2 * String.length s + 2.

(** [checkValid] and the reading of the text: one value, with white space
    around it and nothing else. *)
Definition parse (data : string) : option value :=
  let s := skip_space data in
  match parse_value (fuel_for s) 0 s with
  | Scanned v rest =>
      match skip_space rest with
      | EmptyString => Some v
      | _ => None
      end
  | _ => None
  end.

(** *** Decoding into Go values

    Decoding a value into a destination either goes through, or meets a
    value that does not fit the destination's type, which is recorded
    ([saveError]: the first such error is kept) while decoding goes on, or
    is stopped by an error of a type's own [UnmarshalJSON]. *)
Inductive outcome :=
| Done
| Saved (e : error)
| Abort (e : error).

(** The outcome of two decoding steps in a row. *)
Definition and_then (o1 o2 : outcome) : outcome :=
  match o1, o2 with
  | Abort e, _ => Abort e
  | _, Abort e => Abort e
  | Saved e, _ => Saved e
  | Done, o => o
  end.

(** A Go type [Unmarshal] can fill: its zero value, and the decoding of a
    JSON value into a destination that holds a value of the type. *)
Class Decodable (T : Type) := {
  zero : T;
  decode : value -> T -> T * outcome
}.

(** The [Value] of an [UnmarshalTypeError]. *)
Definition describe (v : value) : string :=
  match v with
  | JNull => "null"
  | JBool _ => "bool"
  | JNumber _ => "number"
  | JString _ => "string"
  | JArray _ => "array"
  | JObject _ => "object"
  end.

Definition mismatch {T : Type} (v : value) (dst : T) : T * outcome :=
  (dst, Saved (UnmarshalTypeError (describe v))).

(** A [string] destination: a JSON string is stored, [null] leaves the
    destination as it is, anything else does not fit. *)
#[global] Instance string_decodable : Decodable string := {
  zero := EmptyString;
  decode v dst :=
    match v with
    | JString s => (s, Done)
    | JNull => (dst, Done)
    | _ => mismatch v dst
    end
}.

Fixpoint digits_value (acc : Z) (s : string) : Z :=
  match s with
  | EmptyString => acc
  | String c r => digits_value (10 * acc + (Z.of_N (byte c) - 48)) r
  end.

(** [strconv.ParseInt(lit, 10, 64)] on a JSON number literal: [None] when
    the literal has a fraction or an exponent or is out of range. *)
Definition parse_int64 (lit : string) : option Z :=
  let (neg, ds) :=
    match lit with
    | String "-"%char r => (true, r)
    | _ => (false, lit)
    end in
  if Str.all Str.is_digit ds && negb (String.eqb ds EmptyString) then
    let n := if neg then - digits_value 0 ds else digits_value 0 ds in
    if (- 2 ^ 63 <=? n) && (n <=? 2 ^ 63 - 1) then Some n else None
  else None.

(** An [int64] destination. *)
#[global] Instance int64_decodable : Decodable Z := {
  zero := 0;
  decode v dst :=
    match v with
    | JNumber lit =>
        match parse_int64 lit with
        | Some n => (n, Done)
        | None => (dst, Saved (UnmarshalTypeError ("number " +:+ lit)))
        end
    | JNull => (dst, Done)
    | _ => mismatch v dst
    end
}.

(** The elements of an array decoded into a slice: element [i] is decoded
    into the slice's element [i] where the slice already has one (which
    happens only when an object repeats the key of the slice), into a zero
    value otherwise; the slice ends up as long as the array.  What an
    earlier, longer array left in the spare capacity of the slice is not
    modelled. *)
Fixpoint decode_elements {T : Type} `{Decodable T} (elems : list value) (old : list T)
  : list T * outcome :=
  match elems with
  | [] => ([], Done)
  | v :: vs =>
      let (x, o) := decode v (hd zero old) in
      match o with
      | Abort e => (x :: tl old, Abort e)
      | _ => let (xs, o') := decode_elements vs (tl old) in (x :: xs, and_then o o')
      end
  end.

(** A slice destination: [null] sets it to [nil]. *)
#[global] Instance slice_decodable {T : Type} `{Decodable T} : Decodable (list T) := {
  zero := [];
  decode v dst :=
    match v with
    | JArray elems => decode_elements elems dst
    | JNull => ([], Done)
    | _ => mismatch v dst
    end
}.

(** [foldName]: two keys name the same field when they are equal under
    Unicode simple case folding.  Field names are ASCII here, and the only
    runes outside ASCII that fold to an ASCII letter are U+017F (to [S])
    and U+212A (to [K]). *)
Definition to_upper (c : ascii) : ascii :=
  if ((97 <=? byte c) && (byte c <=? 122))%N then chr (byte c - 32)%N else c.

Fixpoint fold_name (s : string) : string :=
  match s with
  | EmptyString => EmptyString
  | String c r =>
      let plain := String (to_upper c) (fold_name r) in
      if (byte c =? 197)%N then
        match r with
        | String c1 r1 => if (byte c1 =? 191)%N then String "S"%char (fold_name r1) else plain
        | _ => plain
        end
      else if (byte c =? 226)%N then
        match r with
        | String c1 (String c2 r2) =>
            if ((byte c1 =? 132) && (byte c2 =? 170))%N then String "K"%char (fold_name r2) else plain
        | _ => plain
        end
      else plain
  end.

(** The fields of a struct type [T]: the JSON name of each, and the
    decoding of a value into that field of a destination. *)
Definition fields (T : Type) : Type := list (string * (value -> T -> T * outcome)).

Definition field {T F : Type} `{Decodable F} (name : string) (get : T -> F) (set : F -> T -> T)
  : string * (value -> T -> T * outcome) :=
  (name, fun v dst => let (x, o) := decode v (get dst) in (set x dst, o)).

(** The field a key selects: the one with exactly that name, else the
    first whose name matches under case folding. *)
Definition find_field {T : Type} (fs : fields T) (key : string)
  : option (value -> T -> T * outcome) :=
  match List.find (fun f => String.eqb (fst f) key) fs with
  | Some f => Some (snd f)
  | None =>
      match List.find (fun f => String.eqb (fold_name (fst f)) (fold_name key)) fs with
      | Some f => Some (snd f)
      | None => None
      end
  end.

(** The members of an object decoded in input order; a key that selects
    no field is skipped. *)
Fixpoint decode_members {T : Type} (fs : fields T) (members : list (string * value)) (dst : T)
  : T * outcome :=
  match members with
  | [] => (dst, Done)
  | (key, v) :: rest =>
      match find_field fs key with
      | Some dec =>
          let (dst', o) := dec v dst in
          match o with
          | Abort e => (dst', Abort e)
          | _ => let (dst'', o') := decode_members fs rest dst' in (dst'', and_then o o')
          end
      | None => decode_members fs rest dst
      end
  end.

(** A struct destination. *)
Definition decode_struct {T : Type} (fs : fields T) (v : value) (dst : T) : T * outcome :=
  match v with
  | JObject members => decode_members fs members dst
  | JNull => (dst, Done)
  | _ => mismatch v dst
  end.

(** [json.Unmarshal(data, &dst)]: the destination after the call and the
    error returned.  Invalid JSON is reported before anything is stored. *)
Definition Unmarshal {T : Type} `{Decodable T} (data : string) (dst : T) : T * option error :=
  match parse data with
  | None => (dst, Some SyntaxError)
  | Some v =>
      let (dst', o) := decode v dst in
      (dst', match o with Done => None | Saved e | Abort e => Some e end)
  end.

(** *** What a field is decoded from

    The members of an object whose key names the field [name], decoded one
    after the other, in input order, into a value [x] of the field's
    type. *)
Fixpoint read_member {F : Type} `{Decodable F} (name : string) (members : list (string * value))
  (x : F) : F :=
  match members with
  | [] => x
  | (key, v) :: rest =>
      if String.eqb (fold_name key) (fold_name name)
      then read_member name rest (fst (decode v x))
      else read_member name rest x
  end.

(** The text is an object with a member whose key names the field. *)
Definition carries (name : string) (data : string) : bool :=
  match parse data with
  | Some (JObject members) =>
      List.existsb (fun m => String.eqb (fold_name (fst m)) (fold_name name)) members
  | _ => false
  end.

(** The folded name of a field. *)
Definition folded {T : Type} (f : string * (value -> T -> T * outcome)) : string :=
  fold_name (fst f).

(** A field's decoding leaves what [get] reads as it is. *)
Definition keeps {T F : Type} (get : T -> F) (dec : value -> T -> T * outcome) : Prop :=
  forall v d, get (fst (dec v d)) = get d.

(** A JSON text written with ['] for the double quote. *)
Fixpoint text (s : string) : string :=
  match s with
  | EmptyString => EmptyString
  | String c r => String (if Ascii.eqb c "'" then dquote else c) (text r)
  end.

End Json.

(** ** [net/url] and [net/http] *)

(** [url.Values], a [map[string][]string]. *)
Abbreviation Values := (gmap string (list string)).

Module Url.

(** [Values.Set]: the key is set to the single value, replacing what it
    had. *)
Definition Set_ (key val : string) (v : Values) : Values := <[key := [val]]> v.

(** [Values.Get]: the first value of the key, the empty string when there
    is none. *)
Definition Get (key : string) (v : Values) : string :=
  match v !! key with
  | Some (x :: _) => x
  | _ => EmptyString
  end.

End Url.

Module Http.

(** A response as the file reads it: the status code, and the bytes
    [ReadAll] gets from the body. *)
Record Response := {
  StatusCode : Z;
  Body : string
}.

(** What [Client.PostForm] returns: a response and a nil error, or an
    error (with a response only in the case [net/http] documents, a
    refused redirect). *)
Inductive PostResult :=
| Ok (resp : Response)
| Failed (resp : option Response) (err : string).

(** An [*http.Client], by what its transport answers to a form posted to
    a URL. *)
Record Client := {
  PostForm : string -> Values -> PostResult
}.

(** An inbound request, by its parsed form: the query parameters and the
    fields of a posted form. *)
Record Request := {
  Form : Values
}.

(** [Request.FormValue]. *)
Definition FormValue (r : Request) (key : string) : string := Url.Get key (Form r).

End Http.

(** ** Package [strava]: [oauth.go] *)

(** The package-level variables the file reads, declared in other files of
    the package, and [http.DefaultClient].  [ClientId] is an [int]: the file
    prints it and compares it with zero, so its width plays no part. *)
Record Globals := {
  ClientId : Z;
  ClientSecret : string;
  basePath : string;
  DefaultClient : Http.Client
}.

Definition Permission := string.

Module Permissions.
Definition Public : Permission := "public".
Definition ViewPrivate : Permission := "view_private".
Definition Write_ : Permission := "write".
Definition WriteViewPrivate : Permission := "write,view_private".
Definition All : Permission :=
  "read,read_all,profile:read_all,profile:write,activity:read,activity:read_all,activity:write".
End Permissions.

Module StravaError.
Record t := {
  Code : string;
  Field : string;
  Resource : string
}.

Definition fields : Json.fields t := [
  Json.field "code" Code (fun x e => {| Code := x; Field := Field e; Resource := Resource e |});
  Json.field "field" Field (fun x e => {| Code := Code e; Field := x; Resource := Resource e |});
  Json.field "resource" Resource (fun x e => {| Code := Code e; Field := Field e; Resource := x |})
].

#[global] Instance decodable : Json.Decodable t := {
  zero := {| Code := EmptyString; Field := EmptyString; Resource := EmptyString |};
  decode := Json.decode_struct fields
}.
End StravaError.

Module StravaErrorResponse.
Record t := {
  Errors : list StravaError.t;
  Message : string
}.

Definition fields : Json.fields t := [
  Json.field "errors" Errors (fun x e => {| Errors := x; Message := Message e |});
  Json.field "message" Message (fun x e => {| Errors := Errors e; Message := x |})
].

#[global] Instance decodable : Json.Decodable t := {
  zero := {| Errors := []; Message := EmptyString |};
  decode := Json.decode_struct fields
}.
End StravaErrorResponse.

(** Modelled from the spec: the type [ErrorDetailed] of the elements of
    [Error.Errors], declared outside [oauth.go].  An error detail is
    {code, field, resource: strings}, under these names on the wire. *)
Module ErrorDetailed.
Record t := {
  Resource : string;
  Field : string;
  Code : string
}.

Definition fields : Json.fields t := [
  Json.field "resource" Resource (fun x e => {| Resource := x; Field := Field e; Code := Code e |});
  Json.field "field" Field (fun x e => {| Resource := Resource e; Field := x; Code := Code e |});
  Json.field "code" Code (fun x e => {| Resource := Resource e; Field := Field e; Code := x |})
].

#[global] Instance decodable : Json.Decodable t := {
  zero := {| Resource := EmptyString; Field := EmptyString; Code := EmptyString |};
  decode := Json.decode_struct fields
}.
End ErrorDetailed.

(** Modelled from the spec: the type [Error] that [Authorize] decodes a
    failed response into, declared outside [oauth.go].  An error response
    is {errors: ordered sequence of error details, message: string}, under
    these names on the wire. *)
Module Error.
Record t := {
  Message : string;
  Errors : list ErrorDetailed.t
}.

Definition fields : Json.fields t := [
  Json.field "message" Message (fun x e => {| Message := x; Errors := Errors e |});
  Json.field "errors" Errors (fun x e => {| Message := Message e; Errors := x |})
].

#[global] Instance decodable : Json.Decodable t := {
  zero := {| Message := EmptyString; Errors := [] |};
  decode := Json.decode_struct fields
}.
End Error.

(** The values of Go's [error] the file returns.
    Modelled from the spec: the four [OAuth...Err] values are declared
    outside [oauth.go]; they are the error kinds AuthorizationDeniedError,
    InvalidCredentialsError, InvalidCodeError and ServerError. *)
Inductive error :=
| OAuthAuthorizationDeniedErr
| OAuthInvalidCredentialsErr
| OAuthInvalidCodeErr
| OAuthServerErr
| errors_New (text : string)     (* [errors.New(text)] *)
| ApiError (response : Error.t)  (* [&response], an [*Error] *)
| JsonError (e : Json.error)     (* the error of [json.Unmarshal] *)
| TransportError (err : string)  (* the error of [PostForm] *).

(** An [OAuthAuthenticator] holds how OAuth requests are authenticated. *)
Record OAuthAuthenticator := {
  CallbackURL : string;
  (** [nil], or a function that may itself return a nil client. *)
  RequestClientGenerator : option (Http.Request -> option Http.Client)
}.

(** ** Test doubles

    A stand-in for the athlete record, transports that answer without a
    network, and a configuration: the inputs of the concrete runs at the end
    of the file. *)

Module Fixture.

(** A stand-in for [AthleteSummary] with two of its fields. *)
Record Athlete := {
  Id : Z;
  FirstName : string
}.

Definition Athlete_fields : Json.fields Athlete := [
  Json.field "id" Id (fun x a => {| Id := x; FirstName := FirstName a |});
  Json.field "firstname" FirstName (fun x a => {| Id := Id a; FirstName := x |})
].

#[global] Instance Athlete_decodable : Json.Decodable Athlete := {
  zero := {| Id := 0; FirstName := EmptyString |};
  decode := Json.decode_struct Athlete_fields
}.

(** A transport that answers every request with one response. *)
Definition respond (status : Z) (body : string) : Http.Client :=
  {| Http.PostForm := fun _ _ => Http.Ok {| Http.StatusCode := status; Http.Body := Json.text body |} |}.

(** A transport that reaches no server. *)
Definition offline : Http.Client :=
  {| Http.PostForm := fun _ _ => Http.Failed None "dial tcp: no route to host" |}.

Definition globals : Globals :=
  {| ClientId := 42; ClientSecret := "s3cr3t"; basePath := "https://www.strava.com/api/v3";
     DefaultClient := offline |}.

Definition authenticator : OAuthAuthenticator :=
  {| CallbackURL := "https://app.example/exchange"; RequestClientGenerator := None |}.

(** The callback of a user who declined, and that of one who consented. *)
Definition declined : Http.Request :=
  {| Http.Form := {[ "error" := ["access_denied"]; "code" := ["abc"]; "state" := ["abc123"] ]} |}.

Definition consented : Http.Request :=
  {| Http.Form := {[ "code" := ["abc"]; "state" := ["abc123"]; "scope" := ["read"] ]} |}.

(** An authenticator whose generator builds, for every request, a client
    that gets a token. *)
Definition token_body : string :=
  "{'access_token':'at','refresh_token':'rt','expires_at':1700000000,'expires_in':21600,'athlete':{'id':7,'firstname':'Ada'}}".

Definition generating : OAuthAuthenticator :=
  {| CallbackURL := "https://app.example/exchange";
     RequestClientGenerator := Some (fun _ => Some (respond 200 token_body)) |}.

(** The package as in [globals], with another default client. *)
Definition answering (client : Http.Client) : Globals :=
  {| ClientId := 42; ClientSecret := "s3cr3t"; basePath := "https://www.strava.com/api/v3";
     DefaultClient := client |}.

(** The form of a code grant, and one that comes with credentials of its
    own. *)
Definition grant : Values := {[ "code" := ["abc"] ]}.

Definition forged : Values :=
  {[ "client_id" := ["7"]; "client_secret" := ["guess"]; "code" := ["abc"];
     "grant_type" := ["authorization_code"] ]}.

(** The callback of a user who consented, without a code. *)
Definition codeless : Http.Request :=
  {| Http.Form := {[ "state" := ["abc123"]; "scope" := ["read"] ]} |}.

(** An authenticator whose generator builds no client. *)
Definition unable : OAuthAuthenticator :=
  {| CallbackURL := "https://app.example/exchange";
     RequestClientGenerator := Some (fun _ => None) |}.

(** The answer to a request on a record that does not exist, and what it
    decodes to. *)
Definition not_found_body : string :=
  "{'message':'Record Not Found','errors':[{'resource':'Athlete','field':'id','code':'invalid'}]}".

Definition not_found : Error.t :=
  {| Error.Message := "Record Not Found";
     Error.Errors := [{| ErrorDetailed.Resource := "Athlete"; ErrorDetailed.Field := "id";
                         ErrorDetailed.Code := "invalid" |}] |}.

End Fixture.

Section OAuth.

(** [AthleteSummary] is declared in another file of the package: its type
    and the way it decodes are left open. *)
Context {AthleteSummary : Type} `{Json.Decodable AthleteSummary}.

(** [http.ResponseWriter], which the handler only passes on. *)
Context {ResponseWriter : Type}.

Record AuthorizationResponse := {
  AccessToken : string;
  RefreshToken : string;
  ExpiresAt : Z;
  ExpiresIn : Z;
  Athlete : AthleteSummary;
  State : string
}.

Definition set_AccessToken (x : string) (a : AuthorizationResponse) :=
  {| AccessToken := x; RefreshToken := RefreshToken a; ExpiresAt := ExpiresAt a;
     ExpiresIn := ExpiresIn a; Athlete := Athlete a; State := State a |}.
Definition set_RefreshToken (x : string) (a : AuthorizationResponse) :=
  {| AccessToken := AccessToken a; RefreshToken := x; ExpiresAt := ExpiresAt a;
     ExpiresIn := ExpiresIn a; Athlete := Athlete a; State := State a |}.
Definition set_ExpiresAt (x : Z) (a : AuthorizationResponse) :=
  {| AccessToken := AccessToken a; RefreshToken := RefreshToken a; ExpiresAt := x;
     ExpiresIn := ExpiresIn a; Athlete := Athlete a; State := State a |}.
Definition set_ExpiresIn (x : Z) (a : AuthorizationResponse) :=
  {| AccessToken := AccessToken a; RefreshToken := RefreshToken a; ExpiresAt := ExpiresAt a;
     ExpiresIn := x; Athlete := Athlete a; State := State a |}.
Definition set_Athlete (x : AthleteSummary) (a : AuthorizationResponse) :=
  {| AccessToken := AccessToken a; RefreshToken := RefreshToken a; ExpiresAt := ExpiresAt a;
     ExpiresIn := ExpiresIn a; Athlete := x; State := State a |}.
Definition set_State (x : string) (a : AuthorizationResponse) :=
  {| AccessToken := AccessToken a; RefreshToken := RefreshToken a; ExpiresAt := ExpiresAt a;
     ExpiresIn := ExpiresIn a; Athlete := Athlete a; State := x |}.

(** The struct tags of [AuthorizationResponse]. *)
Definition AuthorizationResponse_fields : Json.fields AuthorizationResponse := [
  Json.field "access_token" AccessToken set_AccessToken;
  Json.field "refresh_token" RefreshToken set_RefreshToken;
  Json.field "expires_at" ExpiresAt set_ExpiresAt;
  Json.field "expires_in" ExpiresIn set_ExpiresIn;
  Json.field "athlete" Athlete set_Athlete;
  Json.field "State" State set_State
].

#[global] Instance AuthorizationResponse_decodable : Json.Decodable AuthorizationResponse := {
  zero := {| AccessToken := EmptyString; RefreshToken := EmptyString; ExpiresAt := 0;
             ExpiresIn := 0; Athlete := Json.zero; State := EmptyString |};
  decode := Json.decode_struct AuthorizationResponse_fields
}.

(** *** What a call does besides returning

    A run is its result and the events it caused, in order: a form posted
    through a client, and the calls the probes of the handler's two
    continuations record. *)
Inductive Event :=
| Posted (client : Http.Client) (url : string) (form : Values)
| Succeeded (auth : AuthorizationResponse) (w : ResponseWriter) (r : Http.Request)
| Rejected (err : error) (w : ResponseWriter) (r : Http.Request).

Definition IO (A : Type) : Type := A * list Event.

Definition ret {A : Type} (a : A) : IO A := (a, []).

Definition bind {A B : Type} (m : IO A) (k : A -> IO B) : IO B :=
  let (a, t1) := m in let (b, t2) := k a in (b, t1 ++ t2).

Notation "'do' x <- m ; k" := (bind m (fun x => k))
  (at level 10, x name, m at level 100, k at level 200).

Definition result {A : Type} (m : IO A) : A := fst m.
Definition trace {A : Type} (m : IO A) : list Event := snd m.

(** [client.PostForm(url, form)]. *)
Definition post (client : Http.Client) (url : string) (form : Values) : IO Http.PostResult :=
  (Http.PostForm client url form, [Posted client url form]).

Definition is_post (e : Event) : bool :=
  match e with
  | Posted _ _ _ => true
  | _ => false
  end.

(** The requests a run sent. *)
Definition posts (t : list Event) : list Event := List.filter is_post t.

(** *** [ExchangeToken]

    The call returns three values, and leaves the caller's [values] with
    the two credentials set: the result is the map after the call, the
    [*http.Response], and the [*AuthorizationResponse] or the error.  The
    map is one the caller made: on a nil map [Set] panics. *)
Definition ExchangeToken (g : Globals) (values : Values)
  : IO (Values * option Http.Response * (AuthorizationResponse + error)) :=
  let values := Url.Set_ "client_id" (Fmt.Sprintf "%d" [Fmt.Int (ClientId g)]) values in
  let values := Url.Set_ "client_secret" (ClientSecret g) values in
  do res <- post (DefaultClient g) (basePath g +:+ "/oauth/token") values;
  match res with
  | Http.Failed resp err => ret (values, resp, inr (TransportError err))
  | Http.Ok resp =>
      let contents := Http.Body resp in
      if negb (Http.StatusCode resp ÷ 100 =? 2) then
        let (stravaErr, _) := Json.Unmarshal contents (Json.zero : StravaErrorResponse.t) in
        ret (values, Some resp, inr (errors_New "Strava API error"))
      else
        let (response, err) := Json.Unmarshal contents (Json.zero : AuthorizationResponse) in
        match err with
        | Some e => ret (values, Some resp, inr (JsonError e))
        | None => ret (values, Some resp, inl response)
        end
  end.

(** *** [OAuthAuthenticator.Authorize] *)
Definition Authorize (g : Globals) (auth : OAuthAuthenticator) (code : string)
  (client : option Http.Client) : IO (AuthorizationResponse + error) :=
  if String.eqb code EmptyString then ret (inr OAuthInvalidCodeErr)
  else
    let client := match client with None => DefaultClient g | Some c => c end in
    do res <- post client (basePath g +:+ "/oauth/token")
             (<["client_id" := [Fmt.Sprintf "%d" [Fmt.Int (ClientId g)]]]>
                (<["client_secret" := [ClientSecret g]]> (<["code" := [code]]> ∅)));
    match res with
    | Http.Failed _ err => ret (inr (TransportError err))
    | Http.Ok resp =>
        if Http.StatusCode resp ÷ 100 =? 5 then ret (inr OAuthServerErr)
        else if negb (Http.StatusCode resp ÷ 100 =? 2) then
          let (response, _) := Json.Unmarshal (Http.Body resp) (Json.zero : Error.t) in
          match Error.Errors response with
          | [] => ret (inr OAuthServerErr)
          | first :: _ =>
              if String.eqb (ErrorDetailed.Resource first) "Application"
              then ret (inr OAuthInvalidCredentialsErr)
              else if String.eqb (ErrorDetailed.Resource first) "RequestToken"
              then ret (inr OAuthInvalidCodeErr)
              else ret (inr (ApiError response))
          end
        else
          let (response, err) := Json.Unmarshal (Http.Body resp) (Json.zero : AuthorizationResponse) in
          match err with
          | Some e => ret (inr (JsonError e))
          | None => ret (inl response)
          end
    end.

(** *** [OAuthAuthenticator.HandlerFunc]

    The handler built from the two continuations, applied to a response
    writer and a request. *)
Definition HandlerFunc (g : Globals) (auth : OAuthAuthenticator)
  (success : AuthorizationResponse -> ResponseWriter -> Http.Request -> IO unit)
  (failure : error -> ResponseWriter -> Http.Request -> IO unit)
  (w : ResponseWriter) (r : Http.Request) : IO unit :=
  if String.eqb (Http.FormValue r "error") "access_denied"
  then failure OAuthAuthorizationDeniedErr w r
  else
    let client :=
      match RequestClientGenerator auth with
      | Some generator => generator r
      | None => Some (DefaultClient g)
      end in
    do res <- Authorize g auth (Http.FormValue r "code") client;
    match res with
    | inr err => failure err w r
    | inl resp => success (set_State (Http.FormValue r "state") resp) w r
    end.

(** Continuations that only record that they were called, and with
    what. *)
Definition probe_success (auth : AuthorizationResponse) (w : ResponseWriter) (r : Http.Request)
  : IO unit := (tt, [Succeeded auth w r]).

Definition probe_failure (err : error) (w : ResponseWriter) (r : Http.Request)
  : IO unit := (tt, [Rejected err w r]).

(** *** The two [AuthorizationURL]s *)

(** The method of [OAuthAuthenticator]. *)
Definition OAuthAuthenticator_AuthorizationURL (g : Globals) (auth : OAuthAuthenticator)
  (state : string) (scope : Permission) (force : bool) : string :=
  let path :=
    Fmt.Sprintf "%s/oauth/authorize?client_id=%d&response_type=code&redirect_uri=%s&scope=%v"
      [Fmt.Str (basePath g); Fmt.Int (ClientId g); Fmt.Str (CallbackURL auth); Fmt.Perm scope] in
  let path := if negb (String.eqb state EmptyString) then path +:+ "&state=" +:+ state else path in
  let path := if force then path +:+ "&approval_prompt=force" else path in
  path.

(** The package-level function. *)
Definition AuthorizationURL (g : Globals) (callbackURL : string) (scope : Permission)
  : string + error :=
  if (ClientId g =? 0) || (ClientId g <? 0) then inr (errors_New "clientId is empty")
  else if String.eqb callbackURL EmptyString then inr (errors_New "callbackURL is empty")
  else if String.eqb scope EmptyString then inr (errors_New "scope is empty")
  else
    inl (Fmt.Sprintf "%s/oauth/authorize?client_id=%d&response_type=code&redirect_uri=%s&scope=%v"
           [Fmt.Str (basePath g); Fmt.Int (ClientId g); Fmt.Str callbackURL; Fmt.Perm scope]).

(** *** The vocabulary of the statements *)

(** The client [Authorize] posts through: the one passed, or
    [http.DefaultClient] when none is. *)
Definition chosen (g : Globals) (client : option Http.Client) : Http.Client :=
  match client with
  | Some c => c
  | None => DefaultClient g
  end.

(** The client the handler passes to [Authorize] for a request. *)
Definition handler_client (g : Globals) (auth : OAuthAuthenticator) (r : Http.Request)
  : option Http.Client :=
  match RequestClientGenerator auth with
  | Some generator => generator r
  | None => Some (DefaultClient g)
  end.

(** The token endpoint. *)
Definition token_url (g : Globals) : string := basePath g +:+ "/oauth/token".

(** The form of the code grant: the two credentials and the code. *)
Definition code_form (g : Globals) (code : string) : Values :=
  {[ "client_id" := [Fmt.itoa (ClientId g)];
     "client_secret" := [ClientSecret g];
     "code" := [code] ]}.

(** The form [ExchangeToken] posts: the caller's, with the two credentials
    set. *)
Definition exchange_form (g : Globals) (values : Values) : Values :=
  <["client_secret" := [ClientSecret g]]> (<["client_id" := [Fmt.itoa (ClientId g)]]> values).

(** The URL of the authorization page for the four operands of the
    format. *)
Definition authorize_url (bp : string) (id : Z) (cb scope : string) : string :=
  bp +:+ "/oauth/authorize?client_id=" +:+ Fmt.itoa id
     +:+ "&response_type=code&redirect_uri=" +:+ cb +:+ "&scope=" +:+ scope.

(** An [AuthorizationResponse] whose fields are what the JSON text holds
    for them: each field is read from the members that name it, starting
    from the zero value. *)
Definition decoded_from (body : string) (a : AuthorizationResponse) : Prop :=
  match Json.parse body with
  | Some (Json.JObject members) =>
      AccessToken a = Json.read_member "access_token" members EmptyString
      /\ RefreshToken a = Json.read_member "refresh_token" members EmptyString
      /\ ExpiresAt a = Json.read_member "expires_at" members 0
      /\ ExpiresIn a = Json.read_member "expires_in" members 0
      /\ Athlete a = Json.read_member "athlete" members Json.zero
      /\ State a = Json.read_member "State" members EmptyString
  | Some Json.JNull => a = Json.zero
  | _ => False
  end.

(** The globals with another client secret. *)
Definition with_secret (secret : string) (g : Globals) : Globals :=
  {| ClientId := ClientId g; ClientSecret := secret; basePath := basePath g;
     DefaultClient := DefaultClient g |}.

(** The fixed text of the authorization URL after the base path. *)
Definition url_template : string :=
  "oauth/authorize?client_id=&response_type=code&redirect_uri=&scope=".

(** An error made with [errors.New], the ConfigurationError of the URL
    builder. *)
Definition is_ConfigurationError (r : string + error) : Prop :=
  exists text, r = inr (errors_New text).

(** ** Properties *)

(** *** Strings, [Sprintf] and status classes *)

Lemma append_empty_r (s : string) : s +:+ EmptyString = s.
Proof. induction s as [|c s IH]; simpl; [reflexivity | now rewrite IH]. Qed.

Lemma append_assoc (a b c : string) : (a +:+ b) +:+ c = a +:+ (b +:+ c).
Proof. induction a as [|x a IH]; simpl; [reflexivity | now rewrite IH]. Qed.

(** The format of both URL builders, applied to its four operands. *)
Lemma Sprintf_authorize (bp : string) (id : Z) (cb scope : string) :
  Fmt.Sprintf "%s/oauth/authorize?client_id=%d&response_type=code&redirect_uri=%s&scope=%v"
    [Fmt.Str bp; Fmt.Int id; Fmt.Str cb; Fmt.Perm scope]
  = authorize_url bp id cb scope.
Proof. unfold authorize_url. simpl. now rewrite append_empty_r. Qed.

Lemma Sprintf_d (n : Z) : Fmt.Sprintf "%d" [Fmt.Int n] = Fmt.itoa n.
Proof. simpl. apply append_empty_r. Qed.

(** [s / 100 == 5] and [s / 100 == 2] in Go's truncated division. *)
Lemma status_class_5 (s : Z) : (s ÷ 100 =? 5) = true <-> 500 <= s <= 599.
Proof. rewrite Z.eqb_eq. Z.to_euclidean_division_equations. lia. Qed.

Lemma status_class_2 (s : Z) : (s ÷ 100 =? 2) = true <-> 200 <= s <= 299.
Proof. rewrite Z.eqb_eq. Z.to_euclidean_division_equations. lia. Qed.

Lemma OAuthAuthenticator_AuthorizationURL_plain
  (g : Globals) (auth : OAuthAuthenticator) (scope : Permission) :
  OAuthAuthenticator_AuthorizationURL g auth EmptyString scope false
  = authorize_url (basePath g) (ClientId g) (CallbackURL auth) scope.
Proof. unfold OAuthAuthenticator_AuthorizationURL. now rewrite Sprintf_authorize. Qed.

Lemma AuthorizationURL_ok (g : Globals) (callbackURL : string) (scope : Permission) :
  0 < ClientId g -> callbackURL <> EmptyString -> scope <> EmptyString ->
  AuthorizationURL g callbackURL scope
  = inl (authorize_url (basePath g) (ClientId g) callbackURL scope).
Proof.
  intros Hid Hcb Hscope. unfold AuthorizationURL. rewrite Sprintf_authorize.
  destruct (Z.eqb_spec (ClientId g) 0); [lia|].
  destruct (Z.ltb_spec (ClientId g) 0); [lia|].
  destruct (String.eqb_spec callbackURL EmptyString); [contradiction|].
  destruct (String.eqb_spec scope EmptyString); [contradiction|]. reflexivity.
Qed.

(** *** Occurrences of a name in a URL *)

Lemma prefix_app_sep (p s : string) (c : ascii) (b : string) :
  Str.mem c p = false -> String.prefix p (s +:+ String c b) = String.prefix p s.
Proof.
  revert s. induction p as [|h p IH]; intros s Hc; [now destruct s|].
  cbn [Str.mem] in Hc. destruct (Ascii.eqb_spec c h) as [->|Hne]; [discriminate|].
  destruct s as [|x s]; cbn [String.append String.prefix].
  - destruct (ascii_dec h c); [congruence | reflexivity].
  - destruct (ascii_dec h x); [now apply IH | reflexivity].
Qed.

Lemma occ_app_sep (p a : string) (c : ascii) (b : string) :
  p <> EmptyString -> Str.mem c p = false ->
  Str.occ p (a +:+ String c b) = (Str.occ p a + Str.occ p b)%nat.
Proof.
  intros Hp Hc. destruct p as [|h p]; [contradiction|].
  induction a as [|x a IH].
  - cbn [String.append Str.occ String.prefix]. cbn [Str.mem] in Hc.
    destruct (Ascii.eqb_spec c h) as [->|Hne]; [discriminate|].
    destruct (ascii_dec h c); [congruence | reflexivity].
  - cbn [String.append Str.occ]. rewrite IH.
    change (String x (a +:+ String c b)) with (String x a +:+ String c b).
    rewrite prefix_app_sep by assumption. lia.
Qed.

Lemma occ_head_absent (h : ascii) (p s : string) :
  Str.mem h s = false -> Str.occ (String h p) s = 0%nat.
Proof.
  induction s as [|x s IH]; [reflexivity|].
  cbn [Str.mem Str.occ String.prefix]. destruct (Ascii.eqb_spec h x) as [->|Hne]; [discriminate|].
  intros Hm. rewrite (IH Hm). destruct (ascii_dec h x); [contradiction | reflexivity].
Qed.

Lemma string_of_uint_bytes (d : Decimal.uint) : Str.all Str.is_itoa_byte (NilEmpty.string_of_uint d) = true.
Proof. induction d; cbn; auto. Qed.

Lemma string_of_uint0_bytes (d : Decimal.uint) :
  Str.all Str.is_itoa_byte (NilZero.string_of_uint d) = true.
Proof.
  unfold NilZero.string_of_uint. destruct d; try reflexivity;
    match goal with |- Str.all _ (NilEmpty.string_of_uint ?x) = _ => apply (string_of_uint_bytes x) end.
Qed.

Lemma itoa_bytes (n : Z) : Str.all Str.is_itoa_byte (Fmt.itoa n) = true.
Proof.
  unfold Fmt.itoa, NilZero.string_of_int.
  destruct (Z.to_int n) as [d|d]; [|cbn [Str.all]]; now rewrite ?string_of_uint0_bytes.
Qed.

Lemma all_mem (f : ascii -> bool) (h : ascii) (s : string) :
  Str.all f s = true -> f h = false -> Str.mem h s = false.
Proof.
  intros Ha Hh. induction s as [|x s IH]; [reflexivity|].
  cbn [Str.all Str.mem] in *. apply andb_true_iff in Ha as [Hx Hs].
  destruct (Ascii.eqb_spec h x) as [->|_]; [congruence | auto].
Qed.

(** A name that starts with a letter does not occur in a decimal numeral. *)
Lemma occ_itoa (h : ascii) (p : string) (n : Z) :
  Str.is_itoa_byte h = false -> Str.occ (String h p) (Fmt.itoa n) = 0%nat.
Proof. intros Hh. apply occ_head_absent, (all_mem Str.is_itoa_byte); [apply itoa_bytes | assumption]. Qed.

Lemma authorize_url_segments (bp : string) (id : Z) (cb scope : string) :
  authorize_url bp id cb scope
  = bp +:+ String "/" ("oauth" +:+ String "/" ("authorize" +:+ String "?" ("client_id" +:+ String "="
      (Fmt.itoa id +:+ String "&" ("response_type" +:+ String "=" ("code" +:+ String "&"
        ("redirect_uri" +:+ String "=" (cb +:+ String "&" ("scope" +:+ String "=" scope))))))))).
Proof. reflexivity. Qed.

Lemma occ_authorize_url (h : ascii) (p bp : string) (id : Z) (cb scope : string) :
  Str.free_of_separators (String h p) = true -> Str.is_itoa_byte h = false ->
  Str.occ (String h p) (authorize_url bp id cb scope)
  = (Str.occ (String h p) url_template
     + (Str.occ (String h p) bp + Str.occ (String h p) cb + Str.occ (String h p) scope))%nat.
Proof.
  intros Hsep Hh. unfold Str.free_of_separators in Hsep.
  repeat (apply andb_true_iff in Hsep as [Hsep ?]).
  repeat match goal with H : negb _ = true |- _ => apply negb_true_iff in H end.
  rewrite authorize_url_segments.
  change url_template
    with ("oauth" +:+ String "/" ("authorize" +:+ String "?" ("client_id" +:+ String "="
      (EmptyString +:+ String "&" ("response_type" +:+ String "=" ("code" +:+ String "&"
        ("redirect_uri" +:+ String "=" (EmptyString +:+ String "&" ("scope" +:+ String "=" EmptyString))))))))).
  rewrite !occ_app_sep by (assumption || discriminate).
  rewrite (occ_itoa h p id Hh). cbn [Str.occ String.prefix]. lia.
Qed.

(** *** The JSON reader never runs out of fuel *)

Section Reader.
Import Json.
Local Open Scope nat_scope.

Lemma skip_space_length (s : string) : String.length (skip_space s) <= String.length s.
Proof. induction s as [|c s IH]; cbn; [lia|]. destruct (is_space c); cbn; lia. Qed.

Lemma starts_with_drop (c : ascii) (s : string) :
  Str.starts_with c s = true -> S (String.length (Str.drop 1 s)) = String.length s.
Proof. destruct s; cbn; [discriminate | reflexivity]. Qed.

Lemma digits_length (s d r : string) : digits s = (d, r) -> String.length r <= String.length s.
Proof.
  revert d r. induction s as [|c s IH]; cbn; intros d r E; [injection E as <- <-; cbn; lia|].
  destruct (Str.is_digit c).
  - destruct (digits s) as [d' r'] eqn:Ed. injection E as <- <-. specialize (IH _ _ eq_refl). lia.
  - injection E as <- <-. cbn. lia.
Qed.

Lemma one_of_length (set s a r : string) : one_of set s = (a, r) -> String.length r <= String.length s.
Proof.
  destruct s as [|c s]; cbn; [intros [= <- <-]; cbn; lia|].
  destruct (Str.mem c set); intros [= <- <-]; cbn; lia.
Qed.

Lemma scan_int_length (s i r : string) : scan_int s = Some (i, r) -> String.length r < String.length s.
Proof.
  destruct s as [|c s]; cbn; [discriminate|].
  destruct (Ascii.eqb c "0"); [intros [= <- <-]; lia|].
  destruct (Str.is_digit c); [|discriminate].
  destruct (digits s) as [d r'] eqn:Ed. intros [= <- <-]. apply digits_length in Ed. lia.
Qed.

Lemma scan_frac_length (s f r : string) : scan_frac s = Some (f, r) -> String.length r <= String.length s.
Proof.
  unfold scan_frac. destruct (one_of "." s) as [dot r0] eqn:E1. apply one_of_length in E1.
  destruct dot; [intros [= <- <-]; lia|].
  destruct (digits r0) as [d r'] eqn:Ed. apply digits_length in Ed.
  destruct d; [discriminate|]. intros [= <- <-]. lia.
Qed.

Lemma scan_exp_length (s e r : string) : scan_exp s = Some (e, r) -> String.length r <= String.length s.
Proof.
  unfold scan_exp. destruct (one_of "eE" s) as [x r0] eqn:E1. apply one_of_length in E1.
  destruct x; [intros [= <- <-]; lia|].
  destruct (one_of "+-" r0) as [sign r1] eqn:E2. apply one_of_length in E2.
  destruct (digits r1) as [d r'] eqn:Ed. apply digits_length in Ed.
  destruct d; [discriminate|]. intros [= <- <-]. lia.
Qed.

Lemma scan_number_length (s lit r : string) :
  scan_number s = Some (lit, r) -> String.length r < String.length s.
Proof.
  unfold scan_number. destruct (one_of "-" s) as [sign s0] eqn:E0. apply one_of_length in E0.
  destruct (scan_int s0) as [[i s1]|] eqn:E1; [|discriminate]. apply scan_int_length in E1.
  destruct (scan_frac s1) as [[f s2]|] eqn:E2; [|discriminate]. apply scan_frac_length in E2.
  destruct (scan_exp s2) as [[e s3]|] eqn:E3; [|discriminate]. apply scan_exp_length in E3.
  intros [= <- <-]. lia.
Qed.

Lemma strip_prefix_length (p s r : string) :
  strip_prefix p s = Some r -> String.length r + String.length p = String.length s.
Proof.
  revert s. induction p as [|a p IH]; intros s; cbn; [intros [= <-]; lia|].
  destruct s as [|b s]; [discriminate|]. destruct (Ascii.eqb a b); [|discriminate].
  intros E. apply IH in E. cbn. lia.
Qed.

Lemma scan_literal_length (s : string) (v : value) (r : string) :
  scan_literal s = Scanned v r -> String.length r < String.length s.
Proof.
  unfold scan_literal.
  repeat match goal with
         | |- context [if ?b then _ else _] => destruct b
         | |- context [strip_prefix ?p s] =>
             let E := fresh "E" in
             destruct (strip_prefix p s) eqn:E; [apply strip_prefix_length in E; cbn in E|]
         end; try discriminate; try (intros [= <- <-]; lia).
  destruct (scan_number s) as [[lit r']|] eqn:E; [|discriminate].
  apply scan_number_length in E. intros [= <- <-]. lia.
Qed.

Lemma scan_string_length_upto (n : nat) (s raw rest : string) :
  String.length s <= n -> scan_string s = Some (raw, rest) -> String.length rest < String.length s.
Proof.
  revert s raw rest. induction n as [|n IH]; intros s raw rest Hn.
  - destruct s; [discriminate | cbn in Hn; lia].
  - destruct s as [|c r]; [discriminate|]. cbn [scan_string]. cbn [String.length] in Hn.
    destruct (Ascii.eqb c dquote); [intros [= <- <-]; cbn; lia|].
    destruct (Ascii.eqb c backslash).
    + destruct r as [|e r1]; [discriminate|]. cbn [String.length] in *.
      destruct (is_simple_escape e).
      * destruct (scan_string r1) as [[raw' rest']|] eqn:E; [|discriminate].
        apply IH in E; [|lia]. intros [= <- <-]. lia.
      * destruct (Ascii.eqb e "u"); [|discriminate].
        destruct r1 as [|h1 [|h2 [|h3 [|h4 r2]]]]; try discriminate.
        destruct (is_hex h1 && is_hex h2 && is_hex h3 && is_hex h4); [|discriminate].
        destruct (scan_string r2) as [[raw' rest']|] eqn:E; [|discriminate].
        cbn [String.length] in *. apply IH in E; [|lia]. intros [= <- <-]. lia.
    + destruct (byte c <? 32)%N; [discriminate|].
      destruct (scan_string r) as [[raw' rest']|] eqn:E; [|discriminate].
      apply IH in E; [|lia]. intros [= <- <-]. cbn. lia.
Qed.

Lemma scan_string_length (s raw rest : string) :
  scan_string s = Some (raw, rest) -> String.length rest < String.length s.
Proof. apply (scan_string_length_upto (String.length s)). lia. Qed.

Definition shrinks {A : Type} (s : string) (r : scan A) : Prop :=
  match r with
  | Scanned _ rest => String.length rest < String.length s
  | _ => True
  end.

Ltac lengths :=
  repeat match goal with
         | H : Str.starts_with _ _ = true |- _ => apply starts_with_drop in H
         | H : scan_string _ = Some _ |- _ => apply scan_string_length in H
         end;
  repeat match goal with
         | |- context [skip_space ?x] =>
             lazymatch goal with
             | _ : String.length (skip_space x) <= String.length x |- _ => fail
             | _ => pose proof (skip_space_length x)
             end
         | _ : context [skip_space ?x] |- _ =>
             lazymatch goal with
             | _ : String.length (skip_space x) <= String.length x |- _ => fail
             | _ => pose proof (skip_space_length x)
             end
         end;
  cbn [String.length] in *; try lia.

Lemma parse_shrinks (fuel : nat) (depth : N) (s : string) :
  shrinks s (parse_value fuel depth s)
  /\ shrinks s (parse_elements fuel depth s)
  /\ shrinks s (parse_members fuel depth s).
Proof.
  revert depth s. induction fuel as [|fuel IH]; intros depth s; [cbn; auto|].
  assert (Hv : shrinks s (parse_value (S fuel) depth s)).
  { cbn [parse_value]. destruct s as [|c r]; [exact I|].
    destruct (Ascii.eqb c "[").
    { destruct (maxNestingDepth <? depth + 1)%N; [exact I|].
      destruct (Str.starts_with "]" (skip_space r)) eqn:E; [cbn [shrinks]; lengths|].
      destruct (IH (depth + 1)%N (skip_space r)) as (_ & He & _).
      destruct (parse_elements fuel (depth + 1) (skip_space r)); cbn [shrinks] in *; lengths. }
    destruct (Ascii.eqb c "{").
    { destruct (maxNestingDepth <? depth + 1)%N; [exact I|].
      destruct (Str.starts_with "}" (skip_space r)) eqn:E; [cbn [shrinks]; lengths|].
      destruct (IH (depth + 1)%N (skip_space r)) as (_ & _ & Hm).
      destruct (parse_members fuel (depth + 1) (skip_space r)); cbn [shrinks] in *; lengths. }
    destruct (Ascii.eqb c dquote).
    { destruct (scan_string r) as [[raw rest]|] eqn:E; cbn [shrinks]; lengths. }
    destruct (scan_literal (String c r)) eqn:El; cbn [shrinks]; [|exact I|exact I].
    eapply scan_literal_length; eassumption. }
  split; [exact Hv|]. split.
  - cbn [parse_elements]. destruct (IH depth s) as (Hv' & _ & _).
    destruct (parse_value fuel depth s) as [v r| |]; cbn [shrinks] in Hv'; [|exact I|exact I].
    destruct (Str.starts_with "," (skip_space r)) eqn:E1.
    { destruct (IH depth (skip_space (Str.drop 1 (skip_space r)))) as (_ & He & _).
      destruct (parse_elements fuel depth (skip_space (Str.drop 1 (skip_space r))));
        cbn [shrinks] in *; lengths. }
    destruct (Str.starts_with "]" (skip_space r)) eqn:E2; cbn [shrinks]; lengths.
  - cbn [parse_members].
    destruct (Str.starts_with dquote s) eqn:E0; [|exact I].
    destruct (scan_string (Str.drop 1 s)) as [[raw r1]|] eqn:E1; [|exact I].
    destruct (Str.starts_with ":" (skip_space r1)) eqn:E2; [|exact I].
    destruct (IH depth (skip_space (Str.drop 1 (skip_space r1)))) as (Hv' & _ & _).
    destruct (parse_value fuel depth (skip_space (Str.drop 1 (skip_space r1)))) as [v r3| |];
      cbn [shrinks] in Hv'; [|exact I|exact I].
    destruct (Str.starts_with "," (skip_space r3)) eqn:E3.
    { destruct (IH depth (skip_space (Str.drop 1 (skip_space r3)))) as (_ & _ & Hm).
      destruct (parse_members fuel depth (skip_space (Str.drop 1 (skip_space r3))));
        cbn [shrinks] in *; lengths. }
    destruct (Str.starts_with "}" (skip_space r3)) eqn:E4; cbn [shrinks]; lengths.
Qed.

Lemma parse_fuel_enough (fuel : nat) (depth : N) (s : string) :
  (2 * String.length s < fuel -> parse_value fuel depth s <> Exhausted)
  /\ (2 * String.length s + 1 < fuel -> parse_elements fuel depth s <> Exhausted)
  /\ (2 * String.length s + 1 < fuel -> parse_members fuel depth s <> Exhausted).
Proof.
  revert depth s. induction fuel as [|fuel IH]; intros depth s; [repeat split; lia|].
  split; [|split]; intros Hfuel.
  - cbn [parse_value]. destruct s as [|c r]; [discriminate|].
    destruct (Ascii.eqb c "[").
    { destruct (maxNestingDepth <? depth + 1)%N; [discriminate|].
      destruct (Str.starts_with "]" (skip_space r)); [discriminate|].
      destruct (IH (depth + 1)%N (skip_space r)) as (_ & He & _).
      destruct (parse_elements fuel (depth + 1) (skip_space r)); try discriminate.
      exfalso. apply He; [lengths | reflexivity]. }
    destruct (Ascii.eqb c "{").
    { destruct (maxNestingDepth <? depth + 1)%N; [discriminate|].
      destruct (Str.starts_with "}" (skip_space r)); [discriminate|].
      destruct (IH (depth + 1)%N (skip_space r)) as (_ & _ & Hm).
      destruct (parse_members fuel (depth + 1) (skip_space r)); try discriminate.
      exfalso. apply Hm; [lengths | reflexivity]. }
    destruct (Ascii.eqb c dquote).
    { destruct (scan_string r) as [[raw rest]|]; discriminate. }
    unfold scan_literal.
    repeat match goal with
           | |- context [if ?b then _ else _] => destruct b
           | |- context [match ?x with Some _ => _ | None => _ end] => destruct x as [[]|]
           | |- context [match ?x with Some _ => _ | None => _ end] => destruct x
           end; discriminate.
  - cbn [parse_elements]. destruct (IH depth s) as (Hv & _ & _).
    pose proof (parse_shrinks fuel depth s) as (Sv & _ & _).
    destruct (parse_value fuel depth s) as [v r| |]; cbn [shrinks] in Sv;
      [|discriminate|exfalso; apply Hv; [lia | reflexivity]].
    destruct (Str.starts_with "," (skip_space r)) eqn:E1.
    { destruct (IH depth (skip_space (Str.drop 1 (skip_space r)))) as (_ & He & _).
      destruct (parse_elements fuel depth (skip_space (Str.drop 1 (skip_space r))));
        try discriminate.
      exfalso. apply He; [lengths | reflexivity]. }
    destruct (Str.starts_with "]" (skip_space r)); discriminate.
  - cbn [parse_members].
    destruct (Str.starts_with dquote s) eqn:E0; [|discriminate].
    destruct (scan_string (Str.drop 1 s)) as [[raw r1]|] eqn:E1; [|discriminate].
    destruct (Str.starts_with ":" (skip_space r1)) eqn:E2; [|discriminate].
    destruct (IH depth (skip_space (Str.drop 1 (skip_space r1)))) as (Hv & _ & _).
    pose proof (parse_shrinks fuel depth (skip_space (Str.drop 1 (skip_space r1)))) as (Sv & _ & _).
    destruct (parse_value fuel depth (skip_space (Str.drop 1 (skip_space r1)))) as [v r3| |];
      cbn [shrinks] in Sv; [|discriminate|exfalso; apply Hv; [lengths | reflexivity]].
    destruct (Str.starts_with "," (skip_space r3)) eqn:E3.
    { destruct (IH depth (skip_space (Str.drop 1 (skip_space r3)))) as (_ & _ & Hm).
      destruct (parse_members fuel depth (skip_space (Str.drop 1 (skip_space r3))));
        try discriminate.
      exfalso. apply Hm; [lengths | reflexivity]. }
    destruct (Str.starts_with "}" (skip_space r3)); discriminate.
Qed.

(** The fuel [parse] gives the reader is never used up: a text is refused
    only for its syntax. *)
Lemma parse_never_exhausted (data : string) :
  parse_value (fuel_for (skip_space data)) 0 (skip_space data) <> Exhausted.
Proof. apply parse_fuel_enough. unfold fuel_for. lia. Qed.
Lemma getu4_length (s : string) (rr : N) (rest : string) :
  getu4 s = Some (rr, rest) -> String.length rest + 6 = String.length s.
Proof.
  unfold getu4. destruct s as [|b [|u [|h1 [|h2 [|h3 [|h4 r]]]]]]; try discriminate.
  destruct (_ && _); [|discriminate]. intros [= _ <-]. cbn. lia.
Qed.

Lemma drop_length (n : nat) (s : string) : String.length (Str.drop n s) = String.length s - n.
Proof. revert s. induction n as [|n IH]; intros [|c s]; cbn; auto. Qed.

Lemma unquote_bytes_fuel (n fuel fuel' : nat) (s : string) :
  String.length s <= n -> n <= fuel -> n <= fuel' -> unquote_bytes fuel s = unquote_bytes fuel' s.
Proof.
  revert fuel fuel' s. induction n as [|n IH]; intros fuel fuel' s Hs Hf Hf'.
  - destruct s; [|cbn in Hs; lia]. now destruct fuel, fuel'.
  - destruct fuel as [|fuel]; [lia|]. destruct fuel' as [|fuel']; [lia|].
    destruct s as [|c r]; [reflexivity|]. cbn [unquote_bytes]. cbn [String.length] in Hs.
    destruct (Ascii.eqb c backslash).
    + destruct r as [|e r1]; [reflexivity|]. cbn [String.length] in Hs.
      destruct (Ascii.eqb e "u"); [|f_equal; apply IH; lia].
      destruct (getu4 (String c (String e r1))) as [[rr r2]|] eqn:E1; [|reflexivity].
      apply getu4_length in E1. cbn [String.length] in E1.
      destruct (is_surrogate rr); [|f_equal; apply IH; lia].
      destruct (getu4 r2) as [[rr1 r3]|] eqn:E2; [|f_equal; apply IH; lia].
      apply getu4_length in E2.
      destruct (utf16_decode rr rr1 =? replacement)%N; f_equal; apply IH; lia.
    + destruct (utf8_size (String c r)) as [|k]; f_equal; apply IH; try lia.
      rewrite drop_length. cbn [String.length]. lia.
Qed.

(** More fuel than the length of the literal changes nothing. *)
Lemma unquote_fuel (raw : string) (fuel : nat) :
  String.length raw <= fuel -> unquote_bytes fuel raw = unquote raw.
Proof. intros Hf. unfold unquote. now apply (unquote_bytes_fuel (String.length raw)). Qed.

End Reader.

(** *** Decoding *)

Lemma find_field_folded {T : Type} (fs : Json.fields T) (key : string) :
  List.NoDup (List.map Json.folded fs) ->
  Json.find_field fs key
  = option_map snd (List.find (fun f => String.eqb (Json.folded f) (Json.fold_name key)) fs).
Proof.
  intros ND. unfold Json.find_field.
  destruct (List.find (fun f => String.eqb (fst f) key) fs) as [f|] eqn:Ex.
  - apply List.find_some in Ex as [Hin Heq]. apply String.eqb_eq in Heq.
    induction fs as [|f0 fs IH]; [contradiction|].
    cbn [List.find]. inversion ND as [|? ? Hnot ND']; subst.
    destruct (String.eqb_spec (Json.folded f0) (Json.fold_name (fst f))) as [E|NE].
    + destruct Hin as [->|Hin]; [reflexivity|].
      exfalso. apply Hnot. rewrite E. apply List.in_map_iff. exists f. split; [reflexivity|assumption].
    + destruct Hin as [->|Hin]; [contradiction NE; reflexivity|]. cbn [List.map] in *. auto.
  - destruct (List.find _ fs); reflexivity.
Qed.

Lemma folded_inj {T : Type} (fs : Json.fields T) (f f' : string * (Json.value -> T -> T * Json.outcome)) :
  List.NoDup (List.map Json.folded fs) -> In f fs -> In f' fs -> Json.folded f = Json.folded f' -> f = f'.
Proof.
  induction fs as [|f0 fs IH]; [contradiction|].
  cbn [List.map]. intros ND Hf Hf' E. inversion ND as [|? ? Hnot ND']; subst.
  destruct Hf as [->|Hf], Hf' as [->|Hf']; auto.
  - exfalso. apply Hnot. rewrite E. now apply List.in_map.
  - exfalso. apply Hnot. rewrite <- E. now apply List.in_map.
Qed.

Lemma and_then_not_abort (o o' : Json.outcome) :
  (forall e, Json.and_then o o' <> Json.Abort e) -> (forall e, o <> Json.Abort e) /\ (forall e, o' <> Json.Abort e).
Proof.
  destruct o as [|a|a], o' as [|b|b]; cbn; intros Hn; split; intros x E;
    try discriminate; eapply Hn; reflexivity.
Qed.

Lemma decode_members_read {T F : Type} `{Json.Decodable F} (fs : Json.fields T) (name : string)
  (get : T -> F) (set : F -> T -> T) :
  List.NoDup (List.map Json.folded fs) ->
  In (Json.field name get set) fs ->
  (forall x d, get (set x d) = x) ->
  List.Forall (fun f => Json.folded f = Json.fold_name name \/ Json.keeps get (snd f)) fs ->
  forall members dst,
    (forall e, snd (Json.decode_members fs members dst) <> Json.Abort e) ->
    get (fst (Json.decode_members fs members dst)) = Json.read_member name members (get dst).
Proof.
  intros ND Hin Hget Hall. induction members as [|[key v] rest IH]; intros dst Hok; [reflexivity|].
  cbn [Json.decode_members Json.read_member] in *. rewrite find_field_folded in * by assumption.
  destruct (List.find (fun f => String.eqb (Json.folded f) (Json.fold_name key)) fs) as [f|] eqn:Efind;
    cbn [option_map] in *.
  - apply List.find_some in Efind as [Hf Ef]. apply String.eqb_eq in Ef.
    destruct (snd f v dst) as [dst' o] eqn:Edec.
    assert (Hdst' : get dst' =
              if String.eqb (Json.fold_name key) (Json.fold_name name) then fst (Json.decode v (get dst)) else get dst).
    { destruct (String.eqb_spec (Json.fold_name key) (Json.fold_name name)) as [Ek|Nk].
      - assert (f = Json.field name get set) as ->.
        { apply (folded_inj fs); auto. unfold Json.folded at 2. cbn [Json.field fst]. congruence. }
        cbn [Json.field snd] in Edec. destruct (Json.decode v (get dst)) as [x o0].
        injection Edec as <- <-. now rewrite Hget.
      - rewrite List.Forall_forall in Hall. destruct (Hall f Hf) as [E|K]; [congruence|].
        specialize (K v dst). now rewrite Edec in K. }
    destruct o as [|e|e]; [| |exfalso; now apply (Hok e)].
    + destruct (Json.decode_members fs rest dst') as [dst'' o'] eqn:Erest. cbn [fst snd] in *.
      specialize (IH dst'). rewrite Erest in IH. cbn [fst snd] in IH.
      rewrite IH, Hdst'; [|intros e E; apply (Hok e); now subst].
      now destruct (String.eqb (Json.fold_name key) (Json.fold_name name)).
    + destruct (Json.decode_members fs rest dst') as [dst'' o'] eqn:Erest. cbn [fst snd] in *.
      specialize (IH dst'). rewrite Erest in IH. cbn [fst snd] in IH.
      rewrite IH, Hdst'; [|intros e0 E; apply (Hok e0); now subst].
      now destruct (String.eqb (Json.fold_name key) (Json.fold_name name)).
  - destruct (String.eqb_spec (Json.fold_name key) (Json.fold_name name)) as [Ek|Nk]; [|now apply IH].
    exfalso. apply (List.find_none _ _ Efind) in Hin.
    unfold Json.folded in Hin. cbn [Json.field fst] in Hin. rewrite Ek, String.eqb_refl in Hin. discriminate.
Qed.

Lemma AuthorizationResponse_fields_distinct :
  List.NoDup (List.map Json.folded AuthorizationResponse_fields).
Proof.
  assert (E : List.map Json.folded AuthorizationResponse_fields
              = ["ACCESS_TOKEN"; "REFRESH_TOKEN"; "EXPIRES_AT"; "EXPIRES_IN"; "ATHLETE"; "STATE"]%string)
    by (vm_compute; reflexivity).
  rewrite E.
  repeat (apply List.NoDup_cons; [cbn [In]; intuition discriminate|]). apply List.NoDup_nil.
Qed.

(** The side conditions of [decode_members_read] for a field of
    [AuthorizationResponse]. *)
Ltac field_facts :=
  lazymatch goal with
  | |- List.NoDup _ => apply AuthorizationResponse_fields_distinct
  | |- In _ _ =>
      unfold AuthorizationResponse_fields; cbn [In];
      repeat first [left; reflexivity | right]
  | |- List.Forall _ _ =>
      unfold AuthorizationResponse_fields;
      repeat (apply List.Forall_cons;
              [first [ left; vm_compute; reflexivity
                     | right; intros v d; unfold Json.field; cbn [snd];
                       destruct (Json.decode _ _); reflexivity ] |]);
      apply List.Forall_nil
  | |- forall x d, _ = x => reflexivity
  end.

Lemma decode_AuthorizationResponse_members (members : list (string * Json.value))
  (dst a : AuthorizationResponse) :
  Json.decode_members AuthorizationResponse_fields members dst = (a, Json.Done) ->
  AccessToken a = Json.read_member "access_token" members (AccessToken dst)
  /\ RefreshToken a = Json.read_member "refresh_token" members (RefreshToken dst)
  /\ ExpiresAt a = Json.read_member "expires_at" members (ExpiresAt dst)
  /\ ExpiresIn a = Json.read_member "expires_in" members (ExpiresIn dst)
  /\ Athlete a = Json.read_member "athlete" members (Athlete dst)
  /\ State a = Json.read_member "State" members (State dst).
Proof.
  intros E.
  assert (Hok : forall e, snd (Json.decode_members AuthorizationResponse_fields members dst) <> Json.Abort e)
    by (rewrite E; discriminate).
  replace a with (fst (Json.decode_members AuthorizationResponse_fields members dst)) by now rewrite E.
  repeat split.
  - apply (decode_members_read _ "access_token" AccessToken set_AccessToken); try assumption; field_facts.
  - apply (decode_members_read _ "refresh_token" RefreshToken set_RefreshToken); try assumption; field_facts.
  - apply (decode_members_read _ "expires_at" ExpiresAt set_ExpiresAt); try assumption; field_facts.
  - apply (decode_members_read _ "expires_in" ExpiresIn set_ExpiresIn); try assumption; field_facts.
  - apply (decode_members_read _ "athlete" Athlete set_Athlete); try assumption; field_facts.
  - apply (decode_members_read _ "State" State set_State); try assumption; field_facts.
Qed.

Lemma Unmarshal_decoded_from (body : string) (a : AuthorizationResponse) :
  Json.Unmarshal body Json.zero = (a, None) -> decoded_from body a.
Proof.
  unfold Json.Unmarshal, decoded_from.
  destruct (Json.parse body) as [v|]; [|discriminate].
  destruct (Json.decode v Json.zero) as [a' o] eqn:E. intros [= <- Ho].
  destruct o; try discriminate.
  destruct v; cbn in E; try discriminate.
  - now injection E as <-.
  - now apply decode_AuthorizationResponse_members in E.
Qed.

Lemma read_member_absent {F : Type} `{Json.Decodable F} (name : string)
  (members : list (string * Json.value)) (x : F) :
  List.existsb (fun m => String.eqb (Json.fold_name (fst m)) (Json.fold_name name)) members = false ->
  Json.read_member name members x = x.
Proof.
  induction members as [|[key v] rest IH]; [reflexivity|].
  cbn [List.existsb Json.read_member fst]. intros E. apply orb_false_iff in E as [E1 E2].
  rewrite E1. now apply IH.
Qed.

(** *** What [Authorize] and [ExchangeToken] post, and what they make of the answer *)

Lemma code_form_eq (g : Globals) (code : string) :
  <["client_id" := [Fmt.Sprintf "%d" [Fmt.Int (ClientId g)]]]>
    (<["client_secret" := [ClientSecret g]]> (<["code" := [code]]> ∅))
  = code_form g code.
Proof. unfold code_form. rewrite Sprintf_d, insert_empty. reflexivity. Qed.

Lemma exchange_form_eq (g : Globals) (values : Values) :
  Url.Set_ "client_secret" (ClientSecret g)
    (Url.Set_ "client_id" (Fmt.Sprintf "%d" [Fmt.Int (ClientId g)]) values)
  = exchange_form g values.
Proof. unfold exchange_form, Url.Set_. now rewrite Sprintf_d. Qed.

(** With a code, [Authorize] posts the code grant once, through the chosen
    client, and its result is read off the answer. *)
Lemma Authorize_posts (g : Globals) (auth : OAuthAuthenticator) (code : string)
  (client : option Http.Client) :
  code <> EmptyString ->
  Authorize g auth code client
  = (match Http.PostForm (chosen g client) (token_url g) (code_form g code) with
     | Http.Failed _ err => inr (TransportError err)
     | Http.Ok resp =>
         if Http.StatusCode resp ÷ 100 =? 5 then inr OAuthServerErr
         else if negb (Http.StatusCode resp ÷ 100 =? 2) then
           let response := fst (Json.Unmarshal (Http.Body resp) (Json.zero : Error.t)) in
           match Error.Errors response with
           | [] => inr OAuthServerErr
           | first :: _ =>
               if String.eqb (ErrorDetailed.Resource first) "Application"
               then inr OAuthInvalidCredentialsErr
               else if String.eqb (ErrorDetailed.Resource first) "RequestToken"
               then inr OAuthInvalidCodeErr
               else inr (ApiError response)
           end
         else
           match Json.Unmarshal (Http.Body resp) (Json.zero : AuthorizationResponse) with
           | (_, Some e) => inr (JsonError e)
           | (response, None) => inl response
           end
     end,
     [Posted (chosen g client) (token_url g) (code_form g code)]).
Proof.
  intros Hcode. unfold Authorize.
  destruct (String.eqb_spec code EmptyString) as [E|_]; [contradiction|].
  rewrite code_form_eq. unfold bind, post, ret.
  change (match client with Some c => c | None => DefaultClient g end) with (chosen g client).
  change (basePath g +:+ "/oauth/token") with (token_url g).
  destruct (Http.PostForm (chosen g client) (token_url g) (code_form g code)) as [resp|? err];
    [|reflexivity].
  destruct (Http.StatusCode resp ÷ 100 =? 5); [reflexivity|].
  destruct (Http.StatusCode resp ÷ 100 =? 2); cbn [negb].
  - destruct (Json.Unmarshal (Http.Body resp) Json.zero) as [response [e|]]; reflexivity.
  - destruct (Json.Unmarshal (Http.Body resp) Json.zero) as [response e]. cbn [fst].
    destruct (Error.Errors response) as [|first rest]; [reflexivity|].
    destruct (String.eqb (ErrorDetailed.Resource first) "Application"); [reflexivity|].
    destruct (String.eqb (ErrorDetailed.Resource first) "RequestToken"); reflexivity.
Qed.

Lemma ExchangeToken_posts (g : Globals) (values : Values) :
  ExchangeToken g values
  = (match Http.PostForm (DefaultClient g) (token_url g) (exchange_form g values) with
     | Http.Failed resp err => (exchange_form g values, resp, inr (TransportError err))
     | Http.Ok resp =>
         if negb (Http.StatusCode resp ÷ 100 =? 2)
         then (exchange_form g values, Some resp, inr (errors_New "Strava API error"))
         else
           match Json.Unmarshal (Http.Body resp) (Json.zero : AuthorizationResponse) with
           | (_, Some e) => (exchange_form g values, Some resp, inr (JsonError e))
           | (response, None) => (exchange_form g values, Some resp, inl response)
           end
     end,
     [Posted (DefaultClient g) (token_url g) (exchange_form g values)]).
Proof.
  unfold ExchangeToken. rewrite exchange_form_eq. unfold bind, post, ret.
  change (basePath g +:+ "/oauth/token") with (token_url g).
  destruct (Http.PostForm (DefaultClient g) (token_url g) (exchange_form g values)) as [resp|? err];
    [|reflexivity].
  destruct (Http.StatusCode resp ÷ 100 =? 2); cbn [negb].
  - destruct (Json.Unmarshal (Http.Body resp) Json.zero) as [response [e|]]; reflexivity.
  - destruct (Json.Unmarshal (Http.Body resp) Json.zero) as [stravaErr e]. reflexivity.
Qed.

Lemma Authorize_returns_decoded (g : Globals) (auth : OAuthAuthenticator) (code : string)
  (client : option Http.Client) (a : AuthorizationResponse) :
  result (Authorize g auth code client) = inl a ->
  code <> EmptyString
  /\ exists resp,
       Http.PostForm (chosen g client) (token_url g) (code_form g code) = Http.Ok resp
       /\ 200 <= Http.StatusCode resp <= 299
       /\ Json.Unmarshal (Http.Body resp) Json.zero = (a, None).
Proof.
  intros E. destruct (String.eqb_spec code EmptyString) as [->|Hcode]; [discriminate E|].
  split; [assumption|].
  rewrite (Authorize_posts g auth code client Hcode) in E. cbn [result fst] in E.
  destruct (Http.PostForm (chosen g client) (token_url g) (code_form g code)) as [resp|? err];
    [|discriminate E].
  exists resp. split; [reflexivity|].
  destruct (Http.StatusCode resp ÷ 100 =? 5); [discriminate E|].
  destruct (Z.eqb_spec (Http.StatusCode resp ÷ 100) 2) as [E2|N2]; cbn [negb] in E.
  - split; [now apply status_class_2, Z.eqb_eq|].
    destruct (Json.Unmarshal (Http.Body resp) Json.zero) as [response [e|]]; [discriminate E|].
    now injection E as ->.
  - cbv zeta in E. destruct (Error.Errors _) as [|first rest]; [discriminate E|].
    destruct (String.eqb _ "Application"); [discriminate E|].
    destruct (String.eqb _ "RequestToken"); discriminate E.
Qed.

(** X4: every response that is not 2xx, a 5xx too, gets the same error
    from [ExchangeToken], whatever its status and its body are, and is
    handed back beside it. *)
Lemma ExchangeToken_failed_response (g : Globals) (values : Values) (resp : Http.Response) :
  Http.PostForm (DefaultClient g) (token_url g) (exchange_form g values) = Http.Ok resp ->
  ~ (200 <= Http.StatusCode resp <= 299) ->
  result (ExchangeToken g values)
  = (exchange_form g values, Some resp, inr (errors_New "Strava API error")).
Proof.
  intros Hpost Hnot. rewrite ExchangeToken_posts, Hpost. cbn [result fst].
  destruct (Z.eqb_spec (Http.StatusCode resp ÷ 100) 2) as [E|_]; [|reflexivity].
  apply Z.eqb_eq, status_class_2 in E. contradiction.
Qed.

(** *** The authorization URL *)

(** C10: the method [AuthorizationURL] validates nothing and cannot fail:
    for every client id (zero and negative ones too), callback URL, scope and
    state it returns the formatted URL, followed by [&state=] and the state
    exactly when the state is not empty, and then by [&approval_prompt=force]
    exactly when [force] is set. *)
Theorem OAuthAuthenticator_AuthorizationURL_format
  (g : Globals) (auth : OAuthAuthenticator) (state : string) (scope : Permission) (force : bool) :
  OAuthAuthenticator_AuthorizationURL g auth state scope force
  = (authorize_url (basePath g) (ClientId g) (CallbackURL auth) scope
       +:+ (if String.eqb state EmptyString then EmptyString else "&state=" +:+ state))
      +:+ (if force then "&approval_prompt=force" else EmptyString).
Proof.
  unfold OAuthAuthenticator_AuthorizationURL. rewrite Sprintf_authorize.
  destruct (String.eqb state EmptyString), force; cbn [negb];
    rewrite ?append_empty_r, ?append_assoc; reflexivity.
Qed.

(** C7: the package-level [AuthorizationURL] fails, with an error made by
    [errors.New], exactly when the client id is zero or negative, or the
    callback URL is empty, or the scope is empty; on every other input it
    returns the URL of [/oauth/authorize] with the parameters [client_id],
    [response_type=code], [redirect_uri] and [scope].  The function is
    pure: it has no events. *)
Theorem AuthorizationURL_fails_iff (g : Globals) (callbackURL : string) (scope : Permission) :
  (is_ConfigurationError (AuthorizationURL g callbackURL scope)
   <-> ClientId g <= 0 \/ callbackURL = EmptyString \/ scope = EmptyString)
  /\ (~ (ClientId g <= 0 \/ callbackURL = EmptyString \/ scope = EmptyString)
      -> AuthorizationURL g callbackURL scope
         = inl (authorize_url (basePath g) (ClientId g) callbackURL scope)).
Proof.
  unfold AuthorizationURL, is_ConfigurationError. rewrite Sprintf_authorize.
  destruct (Z.eqb_spec (ClientId g) 0) as [E0|N0]; cbn [orb].
  { split; [split; [intros _; left; lia | intros _; eauto] | intros C; exfalso; apply C; left; lia]. }
  destruct (Z.ltb_spec (ClientId g) 0) as [L0|G0].
  { split; [split; [intros _; left; lia | intros _; eauto] | intros C; exfalso; apply C; left; lia]. }
  destruct (String.eqb_spec callbackURL EmptyString) as [Ec|Nc].
  { split; [split; [intros _; auto | intros _; eauto] | intros C; exfalso; apply C; auto]. }
  destruct (String.eqb_spec scope EmptyString) as [Es|Ns].
  { split; [split; [intros _; auto | intros _; eauto] | intros C; exfalso; apply C; auto]. }
  split; [split | reflexivity].
  - intros [text E]. discriminate E.
  - intros [C|[C|C]]; [lia | contradiction | contradiction].
Qed.

(** *** [Authorize] *)

(** C1 (amended): a response whose status is not 2xx makes [Authorize]
    return an error that depends on the status and the body only.  A status
    of 500 to 599 gives [OAuthServerErr] whatever the body is.  For any
    other status the body is decoded into an [Error] and the decoder's error
    is dropped: the error list is what the decoder left in the destination,
    which is empty when the body is not valid JSON.  An empty list gives
    [OAuthServerErr]; a first detail on the resource [Application] gives
    [OAuthInvalidCredentialsErr], one on [RequestToken] gives
    [OAuthInvalidCodeErr], any other gives the decoded [Error] itself. *)
Theorem Authorize_failed_response
  (g : Globals) (auth : OAuthAuthenticator) (code : string) (client : option Http.Client)
  (resp : Http.Response) :
  code <> EmptyString ->
  Http.PostForm (chosen g client) (token_url g) (code_form g code) = Http.Ok resp ->
  ~ (200 <= Http.StatusCode resp <= 299) ->
  let response := fst (Json.Unmarshal (Http.Body resp) (Json.zero : Error.t)) in
  result (Authorize g auth code client)
  = inr (if decide (500 <= Http.StatusCode resp <= 599) then OAuthServerErr
         else
           match Error.Errors response with
           | [] => OAuthServerErr
           | first :: _ =>
               if decide (ErrorDetailed.Resource first = "Application") then OAuthInvalidCredentialsErr
               else if decide (ErrorDetailed.Resource first = "RequestToken") then OAuthInvalidCodeErr
               else ApiError response
           end)
  /\ (Json.parse (Http.Body resp) = None -> Error.Errors response = []).
Proof.
  intros Hcode Hpost Hnot2 response. split.
  - rewrite (Authorize_posts g auth code client Hcode), Hpost. cbn [result fst].
    destruct (Z.eqb_spec (Http.StatusCode resp ÷ 100) 5) as [E5|N5].
    + apply Z.eqb_eq, status_class_5 in E5. now rewrite decide_True.
    + rewrite decide_False by (intros C; apply status_class_5, Z.eqb_eq in C; contradiction).
      destruct (Z.eqb_spec (Http.StatusCode resp ÷ 100) 2) as [E2|N2].
      { apply Z.eqb_eq, status_class_2 in E2. contradiction. }
      cbn [negb]. fold response.
      destruct (Error.Errors response) as [|first rest]; [reflexivity|].
      destruct (String.eqb_spec (ErrorDetailed.Resource first) "Application") as [EA|NA].
      { now rewrite decide_True. }
      rewrite decide_False by assumption.
      destruct (String.eqb_spec (ErrorDetailed.Resource first) "RequestToken") as [ER|NR].
      { now rewrite decide_True. }
      now rewrite decide_False by assumption.
  - intros Hparse. subst response. unfold Json.Unmarshal. now rewrite Hparse.
Qed.

(** C2: a response whose status is 2xx makes [Authorize] return the
    [AuthorizationResponse] its body decodes to, each field being what the
    JSON text holds for it, when decoding reports no error; and the
    decoder's own error when it reports one. *)
Theorem Authorize_success_response
  (g : Globals) (auth : OAuthAuthenticator) (code : string) (client : option Http.Client)
  (resp : Http.Response) :
  code <> EmptyString ->
  Http.PostForm (chosen g client) (token_url g) (code_form g code) = Http.Ok resp ->
  200 <= Http.StatusCode resp <= 299 ->
  match Json.Unmarshal (Http.Body resp) (Json.zero : AuthorizationResponse) with
  | (response, None) =>
      result (Authorize g auth code client) = inl response
      /\ decoded_from (Http.Body resp) response
  | (_, Some e) => result (Authorize g auth code client) = inr (JsonError e)
  end.
Proof.
  intros Hcode Hpost H2.
  rewrite (Authorize_posts g auth code client Hcode), Hpost. cbn [result fst].
  assert (E5 : (Http.StatusCode resp ÷ 100 =? 5) = false).
  { apply not_true_is_false. intros C. apply status_class_5 in C. lia. }
  apply status_class_2 in H2. rewrite E5, H2. cbn [negb].
  destruct (Json.Unmarshal (Http.Body resp) Json.zero) as [response [e|]] eqn:E; [reflexivity|].
  split; [reflexivity | now apply Unmarshal_decoded_from].
Qed.
(** C3: with the empty string as the code, [Authorize] returns
    [OAuthInvalidCodeErr] and has no event, whatever client is passed, none
    included: nothing is posted. *)
Theorem Authorize_empty_code
  (g : Globals) (auth : OAuthAuthenticator) (client : option Http.Client) :
  Authorize g auth EmptyString client = (inr OAuthInvalidCodeErr, []).
Proof. reflexivity. Qed.

(** *** The handler *)

(** C5: on a request whose [error] parameter is [access_denied], the
    handler does what the failure continuation does on
    [OAuthAuthorizationDeniedErr] and nothing else; with the recording
    continuations, the run is that one call: the success continuation is
    not called and no form is posted, through no client. *)
Theorem HandlerFunc_access_denied
  (g : Globals) (auth : OAuthAuthenticator)
  (success : AuthorizationResponse -> ResponseWriter -> Http.Request -> IO unit)
  (failure : error -> ResponseWriter -> Http.Request -> IO unit)
  (w : ResponseWriter) (r : Http.Request) :
  Http.FormValue r "error" = "access_denied" ->
  HandlerFunc g auth success failure w r = failure OAuthAuthorizationDeniedErr w r
  /\ trace (HandlerFunc g auth probe_success probe_failure w r)
     = [Rejected OAuthAuthorizationDeniedErr w r]
  /\ posts (trace (HandlerFunc g auth success failure w r))
     = posts (trace (failure OAuthAuthorizationDeniedErr w r)).
Proof.
  intros E. unfold HandlerFunc. rewrite E. cbn [String.eqb]. 
  repeat split; reflexivity.
Qed.

(** C6: when the exchange of a callback's code succeeds, the handler calls
    the success continuation, after the exchange and with nothing in
    between, on the response [Authorize] returned with [State] set to the
    request's [state] parameter and every other field as it was.
    [Authorize] and [ExchangeToken] themselves return the decoded response
    as it is: its [State] is what the body holds under that name, the empty
    string when the body has no such member. *)
Theorem HandlerFunc_success_sets_State
  (g : Globals) (auth : OAuthAuthenticator)
  (success : AuthorizationResponse -> ResponseWriter -> Http.Request -> IO unit)
  (failure : error -> ResponseWriter -> Http.Request -> IO unit)
  (w : ResponseWriter) (r : Http.Request) (a : AuthorizationResponse) :
  let exchange := Authorize g auth (Http.FormValue r "code") (handler_client g auth r) in
  let passed := set_State (Http.FormValue r "state") a in
  Http.FormValue r "error" <> "access_denied" ->
  result exchange = inl a ->
  (HandlerFunc g auth success failure w r = bind exchange (fun _ => success passed w r)
   /\ trace (HandlerFunc g auth probe_success probe_failure w r)
      = trace exchange ++ [Succeeded passed w r])
  /\ (State passed = Http.FormValue r "state"
      /\ AccessToken passed = AccessToken a /\ RefreshToken passed = RefreshToken a
      /\ ExpiresAt passed = ExpiresAt a /\ ExpiresIn passed = ExpiresIn a
      /\ Athlete passed = Athlete a)
  /\ (exists resp,
        Http.PostForm (chosen g (handler_client g auth r)) (token_url g)
          (code_form g (Http.FormValue r "code")) = Http.Ok resp
        /\ Json.Unmarshal (Http.Body resp) Json.zero = (a, None)
        /\ decoded_from (Http.Body resp) a
        /\ (Json.carries "State" (Http.Body resp) = false -> State a = EmptyString))
  /\ (forall values resp' a',
        Http.PostForm (DefaultClient g) (token_url g) (exchange_form g values) = Http.Ok resp' ->
        200 <= Http.StatusCode resp' <= 299 ->
        Json.Unmarshal (Http.Body resp') Json.zero = (a', None) ->
        result (ExchangeToken g values) = (exchange_form g values, Some resp', inl a')).
Proof.
  intros exchange passed Hnot Hres. repeat apply conj; try reflexivity.
  - unfold HandlerFunc. destruct (String.eqb_spec (Http.FormValue r "error") "access_denied");
      [contradiction|].
    fold (handler_client g auth r). fold exchange. unfold bind.
    destruct exchange as [res t]. cbn [result fst] in Hres. now subst res.
  - unfold HandlerFunc. destruct (String.eqb_spec (Http.FormValue r "error") "access_denied");
      [contradiction|].
    fold (handler_client g auth r). fold exchange. unfold bind.
    destruct exchange as [res t]. cbn [result fst] in Hres. now subst res.
  - apply Authorize_returns_decoded in Hres as [Hcode [resp [Hpost [H2 Hdec]]]].
    exists resp. repeat apply conj; try assumption.
    + now apply Unmarshal_decoded_from.
    + intros Hno. pose proof (Unmarshal_decoded_from _ _ Hdec) as D.
      unfold decoded_from in D. unfold Json.carries in Hno.
      destruct (Json.parse (Http.Body resp)) as [[| | | | |members]|]; try contradiction.
      * now subst a.
      * destruct D as (_ & _ & _ & _ & _ & ->). now apply read_member_absent.
  - intros values resp' a' Hpost H2 Hdec. rewrite ExchangeToken_posts, Hpost.
    apply status_class_2 in H2. rewrite H2. cbn [negb]. now rewrite Hdec.
Qed.
(** *** The client secret and the parameter names in the URL *)

(** C8 (amended): the authorization URL does not depend on the client
    secret: with any two secrets and the other inputs the same, the method
    and the package-level function return the same result.  The secret is
    sent in the form of the token exchange: [Authorize] and [ExchangeToken]
    each post one form, whose [client_secret] is the configured secret,
    also when the caller's values had one. *)
Theorem AuthorizationURL_independent_of_secret
  (g : Globals) (secret secret' : string) (auth : OAuthAuthenticator)
  (state callbackURL : string) (scope : Permission) (force : bool) :
  (OAuthAuthenticator_AuthorizationURL (with_secret secret g) auth state scope force
   = OAuthAuthenticator_AuthorizationURL (with_secret secret' g) auth state scope force
   /\ AuthorizationURL (with_secret secret g) callbackURL scope
      = AuthorizationURL (with_secret secret' g) callbackURL scope)
  /\ (forall code client,
        code <> EmptyString ->
        exists form,
          trace (Authorize g auth code client) = [Posted (chosen g client) (token_url g) form]
          /\ form !! "client_secret" = Some [ClientSecret g])
  /\ (forall values,
        exists form,
          trace (ExchangeToken g values) = [Posted (DefaultClient g) (token_url g) form]
          /\ form !! "client_secret" = Some [ClientSecret g]).
Proof.
  split; [split; reflexivity|]. split.
  - intros code client Hcode. exists (code_form g code).
    rewrite (Authorize_posts g auth code client Hcode). split; [reflexivity|].
    unfold code_form. now rewrite lookup_insert_ne, lookup_insert_eq.
  - intros values. exists (exchange_form g values). rewrite ExchangeToken_posts.
    split; [reflexivity|]. unfold exchange_form. now rewrite lookup_insert_eq.
Qed.

(** C9 (amended): for a positive client id and a callback URL and a scope
    that are not empty, both builders return the same URL when no state and
    no forced approval are asked for, and in it each of [client_id],
    [redirect_uri] and [scope] occurs once, and [state] and
    [approval_prompt] not at all, besides the occurrences inside the base
    path, the callback URL and the scope themselves. *)
Theorem AuthorizationURL_name_counts
  (g : Globals) (auth : OAuthAuthenticator) (scope : Permission) :
  0 < ClientId g -> CallbackURL auth <> EmptyString -> scope <> EmptyString ->
  let url := OAuthAuthenticator_AuthorizationURL g auth EmptyString scope false in
  let inside (name : string) : nat :=
    (Str.occ name (basePath g) + Str.occ name (CallbackURL auth) + Str.occ name scope)%nat in
  AuthorizationURL g (CallbackURL auth) scope = inl url
  /\ Str.occ "client_id" url = (1 + inside "client_id")%nat
  /\ Str.occ "redirect_uri" url = (1 + inside "redirect_uri")%nat
  /\ Str.occ "scope" url = (1 + inside "scope")%nat
  /\ Str.occ "state" url = inside "state"
  /\ Str.occ "approval_prompt" url = inside "approval_prompt".
Proof.
  intros Hid Hcb Hscope url inside. subst url inside.
  rewrite OAuthAuthenticator_AuthorizationURL_plain.
  split; [now apply AuthorizationURL_ok|].
  repeat split; apply occ_authorize_url; reflexivity.
Qed.

(** ** More of [oauth.go]

    Properties of [ExchangeToken], [Authorize], the handler and the URL
    method beyond the ones above. *)

(** *** [ExchangeToken] *)

Lemma ExchangeToken_form (g : Globals) (values : Values) :
  fst (fst (result (ExchangeToken g values))) = exchange_form g values.
Proof.
  rewrite ExchangeToken_posts. cbn [result fst].
  destruct (Http.PostForm _ _ _) as [resp|resp err]; [|reflexivity].
  destruct (negb _); [reflexivity|].
  destruct (Json.Unmarshal _ _) as [response [e|]]; reflexivity.
Qed.

(** X1: the credentials are always the configured ones: [ExchangeToken] posts,
    once and through [http.DefaultClient], the caller's form with
    [client_id] and [client_secret] replaced by the package's, whatever the
    caller had put under these keys, and every other key as the caller set
    it; the caller's map is that form after the call. *)
Theorem ExchangeToken_sets_credentials (g : Globals) (values : Values) :
  let form := fst (fst (result (ExchangeToken g values))) in
  trace (ExchangeToken g values) = [Posted (DefaultClient g) (token_url g) form]
  /\ form !! "client_id" = Some [Fmt.itoa (ClientId g)]
  /\ form !! "client_secret" = Some [ClientSecret g]
  /\ (forall key : string,
        key <> "client_id" -> key <> "client_secret" -> form !! key = values !! key).
Proof.
  cbv zeta. rewrite ExchangeToken_form. unfold exchange_form.
  repeat apply conj.
  - now rewrite ExchangeToken_posts.
  - now rewrite lookup_insert_ne, lookup_insert_eq.
  - now rewrite lookup_insert_eq.
  - intros key H1 H2. now rewrite !lookup_insert_ne.
Qed.

(** X2: the map [ExchangeToken] leaves behind can be passed in again: the
    second call posts the same form to the same place. *)
Theorem ExchangeToken_repeats_request (g : Globals) (values : Values) :
  trace (ExchangeToken g (fst (fst (result (ExchangeToken g values)))))
  = trace (ExchangeToken g values).
Proof.
  rewrite ExchangeToken_form, !ExchangeToken_posts. cbn [trace snd].
  assert (E : exchange_form g (exchange_form g values) = exchange_form g values).
  { unfold exchange_form.
    rewrite (insert_insert_ne _ "client_id" "client_secret") by discriminate.
    now rewrite insert_insert_eq, insert_insert_eq. }
  now rewrite E.
Qed.

Lemma exchange_form_code (g : Globals) (code : string) :
  exchange_form g {[ "code" := [code] ]} = code_form g code.
Proof.
  unfold exchange_form, code_form.
  now rewrite (insert_insert_ne _ "client_secret" "client_id") by discriminate.
Qed.

(** X3: on the code grant [ExchangeToken] is [Authorize] with the default
    client: they post the same request, and return the same result when the
    transport fails and when the response is 2xx. *)
Theorem ExchangeToken_code_grant (g : Globals) (auth : OAuthAuthenticator) (code : string) :
  code <> EmptyString ->
  trace (ExchangeToken g {[ "code" := [code] ]}) = trace (Authorize g auth code None)
  /\ match Http.PostForm (DefaultClient g) (token_url g) (code_form g code) with
     | Http.Failed _ _ =>
         snd (result (ExchangeToken g {[ "code" := [code] ]})) = result (Authorize g auth code None)
     | Http.Ok resp =>
         200 <= Http.StatusCode resp <= 299 ->
         snd (result (ExchangeToken g {[ "code" := [code] ]})) = result (Authorize g auth code None)
     end.
Proof.
  intros Hcode. rewrite ExchangeToken_posts, (Authorize_posts g auth code None Hcode).
  rewrite exchange_form_code. cbn [chosen result trace fst snd]. split; [reflexivity|].
  destruct (Http.PostForm (DefaultClient g) (token_url g) (code_form g code)) as [resp|resp err];
    [|reflexivity].
  intros H2. assert (E5 : (Http.StatusCode resp ÷ 100 =? 5) = false).
  { apply not_true_is_false. intros C. apply status_class_5 in C. lia. }
  apply status_class_2 in H2. rewrite E5, H2. cbn [negb].
  destruct (Json.Unmarshal (Http.Body resp) Json.zero) as [response [e|]]; reflexivity.
Qed.

(** X5: a token comes only from a 2xx response: when [ExchangeToken] returns an
    [AuthorizationResponse], the default client answered the posted form
    with a 2xx response whose body decodes to it without an error, and that
    response is the one returned beside it. *)
Theorem ExchangeToken_success_only_from_2xx
  (g : Globals) (values : Values) (a : AuthorizationResponse) :
  snd (result (ExchangeToken g values)) = inl a ->
  exists resp,
    Http.PostForm (DefaultClient g) (token_url g) (exchange_form g values) = Http.Ok resp
    /\ 200 <= Http.StatusCode resp <= 299
    /\ Json.Unmarshal (Http.Body resp) Json.zero = (a, None)
    /\ snd (fst (result (ExchangeToken g values))) = Some resp.
Proof.
  rewrite ExchangeToken_posts. cbn [result fst].
  destruct (Http.PostForm _ _ _) as [resp|resp err]; [|discriminate].
  destruct (Z.eqb_spec (Http.StatusCode resp ÷ 100) 2) as [E2|N2]; cbn [negb]; [|discriminate].
  destruct (Json.Unmarshal (Http.Body resp) Json.zero) as [response [e|]] eqn:E; [discriminate|].
  cbn [snd fst]. intros [= ->]. exists resp.
  split; [reflexivity|]. split; [now apply status_class_2, Z.eqb_eq|].
  split; [assumption | reflexivity].
Qed.

(** X6: when the transport fails, both exchanges return the transport's error
    as it is, after the one post; [ExchangeToken] also hands back whatever
    response the transport gave with the error, and [Authorize] drops
    it.  Nothing is decoded. *)
Theorem exchange_transport_failure
  (g : Globals) (auth : OAuthAuthenticator) (code : string) (client : option Http.Client)
  (values : Values) :
  (forall resp err,
     Http.PostForm (DefaultClient g) (token_url g) (exchange_form g values) = Http.Failed resp err ->
     ExchangeToken g values
     = ((exchange_form g values, resp, inr (TransportError err)),
        [Posted (DefaultClient g) (token_url g) (exchange_form g values)]))
  /\ (forall resp err,
        code <> EmptyString ->
        Http.PostForm (chosen g client) (token_url g) (code_form g code) = Http.Failed resp err ->
        Authorize g auth code client
        = (inr (TransportError err), [Posted (chosen g client) (token_url g) (code_form g code)])).
Proof.
  split.
  - intros resp err Hpost. now rewrite ExchangeToken_posts, Hpost.
  - intros resp err Hcode Hpost. now rewrite (Authorize_posts g auth code client Hcode), Hpost.
Qed.

(** *** [Authorize] *)

(** X7: the errors [Authorize] can return: never [OAuthAuthorizationDeniedErr]
    and never one made by [errors.New]; and an [*Error] only when its list
    of details is not empty and the first detail is on a resource other than
    [Application] and [RequestToken]. *)
Theorem Authorize_error_kinds
  (g : Globals) (auth : OAuthAuthenticator) (code : string) (client : option Http.Client)
  (err : error) :
  result (Authorize g auth code client) = inr err ->
  match err with
  | OAuthAuthorizationDeniedErr | errors_New _ => False
  | ApiError response =>
      exists first rest,
        Error.Errors response = first :: rest
        /\ ErrorDetailed.Resource first <> "Application"
        /\ ErrorDetailed.Resource first <> "RequestToken"
  | _ => True
  end.
Proof.
  destruct (String.eqb_spec code EmptyString) as [->|Hcode]; [intros [= <-]; exact I|].
  rewrite (Authorize_posts g auth code client Hcode). cbn [result fst].
  destruct (Http.PostForm _ _ _) as [resp|resp e]; [|intros [= <-]; exact I].
  destruct (_ =? 5); [intros [= <-]; exact I|].
  destruct (negb _).
  - cbv zeta. destruct (Error.Errors _) as [|first rest] eqn:E; [intros [= <-]; exact I|].
    destruct (String.eqb_spec (ErrorDetailed.Resource first) "Application") as [EA|NA];
      [intros [= <-]; exact I|].
    destruct (String.eqb_spec (ErrorDetailed.Resource first) "RequestToken") as [ER|NR];
      [intros [= <-]; exact I|].
    intros [= <-]. exists first, rest. auto.
  - destruct (Json.Unmarshal _ _) as [response [e|]]; [intros [= <-]; exact I | discriminate].
Qed.

(** X8: a token comes only from a 2xx response: when [Authorize] returns an
    [AuthorizationResponse], the code was not empty and the chosen client
    answered the code grant with a 2xx response whose body decodes to it
    without an error. *)
Theorem Authorize_success_only_from_2xx
  (g : Globals) (auth : OAuthAuthenticator) (code : string) (client : option Http.Client)
  (a : AuthorizationResponse) :
  result (Authorize g auth code client) = inl a ->
  code <> EmptyString
  /\ exists resp,
       Http.PostForm (chosen g client) (token_url g) (code_form g code) = Http.Ok resp
       /\ 200 <= Http.StatusCode resp <= 299
       /\ Json.Unmarshal (Http.Body resp) Json.zero = (a, None).
Proof. apply Authorize_returns_decoded. Qed.

(** *** The handler *)

Lemma trace_bind {A B : Type} (m : IO A) (k : A -> IO B) :
  trace (bind m k) = trace m ++ trace (k (result m)).
Proof. unfold bind. destruct m as [a t1]. cbn [result fst]. now destruct (k a). Qed.

Lemma Authorize_trace (g : Globals) (auth : OAuthAuthenticator) (code : string)
  (client : option Http.Client) :
  trace (Authorize g auth code client)
  = if String.eqb code EmptyString then []
    else [Posted (chosen g client) (token_url g) (code_form g code)].
Proof.
  destruct (String.eqb_spec code EmptyString) as [->|Hcode]; [reflexivity|].
  now rewrite (Authorize_posts g auth code client Hcode).
Qed.

Lemma HandlerFunc_exchanges (g : Globals) (auth : OAuthAuthenticator)
  (success : AuthorizationResponse -> ResponseWriter -> Http.Request -> IO unit)
  (failure : error -> ResponseWriter -> Http.Request -> IO unit)
  (w : ResponseWriter) (r : Http.Request) :
  Http.FormValue r "error" <> "access_denied" ->
  HandlerFunc g auth success failure w r
  = bind (Authorize g auth (Http.FormValue r "code") (handler_client g auth r))
      (fun res => match res with
                  | inr err => failure err w r
                  | inl resp => success (set_State (Http.FormValue r "state") resp) w r
                  end).
Proof.
  intros Hnot. unfold HandlerFunc.
  destruct (String.eqb_spec (Http.FormValue r "error") "access_denied"); [contradiction|].
  reflexivity.
Qed.

(** X9: every error of [Authorize] reaches the failure continuation as it is:
    when the exchange of a callback's code fails, the handler is the
    exchange followed by the failure continuation on that error, so the
    recording continuations see one rejection with this error, after what
    the exchange did, and no success. *)
Theorem HandlerFunc_failure
  (g : Globals) (auth : OAuthAuthenticator)
  (success : AuthorizationResponse -> ResponseWriter -> Http.Request -> IO unit)
  (failure : error -> ResponseWriter -> Http.Request -> IO unit)
  (w : ResponseWriter) (r : Http.Request) (err : error) :
  let exchange := Authorize g auth (Http.FormValue r "code") (handler_client g auth r) in
  Http.FormValue r "error" <> "access_denied" ->
  result exchange = inr err ->
  HandlerFunc g auth success failure w r = bind exchange (fun _ => failure err w r)
  /\ trace (HandlerFunc g auth probe_success probe_failure w r)
     = trace exchange ++ [Rejected err w r].
Proof.
  intros exchange Hnot Hres. rewrite !HandlerFunc_exchanges by assumption. fold exchange.
  unfold bind. destruct exchange as [res t]. cbn [result fst] in Hres. subst res.
  split; reflexivity.
Qed.

(** X10: the handler calls exactly one of its continuations, exactly once, and
    last: whatever the request and the transport, the run with the
    recording continuations is at most one posted form followed by one
    call of a continuation. *)
Theorem HandlerFunc_calls_one_continuation
  (g : Globals) (auth : OAuthAuthenticator) (w : ResponseWriter) (r : Http.Request) :
  exists sent called,
    trace (HandlerFunc g auth probe_success probe_failure w r) = sent ++ [called]
    /\ posts sent = sent /\ (length sent <= 1)%nat
    /\ is_post called = false.
Proof.
  destruct (String.eqb_spec (Http.FormValue r "error") "access_denied") as [E|Hnot].
  - exists [], (Rejected OAuthAuthorizationDeniedErr w r).
    unfold HandlerFunc. rewrite E. cbn. auto.
  - rewrite HandlerFunc_exchanges, trace_bind, Authorize_trace by assumption.
    set (res := result _).
    exists (if String.eqb (Http.FormValue r "code") EmptyString then []
            else [Posted (chosen g (handler_client g auth r)) (token_url g)
                    (code_form g (Http.FormValue r "code"))]),
           (match res with
            | inr err => Rejected err w r
            | inl resp => Succeeded (set_State (Http.FormValue r "state") resp) w r
            end).
    split; [now destruct res|].
    split; [now destruct (String.eqb _ EmptyString)|].
    split; [destruct (String.eqb _ EmptyString); cbn; lia | now destruct res].
Qed.

(** X11: a callback without a [code] parameter, from a user who did not decline,
    is rejected with [OAuthInvalidCodeErr] before anything is posted. *)
Theorem HandlerFunc_missing_code
  (g : Globals) (auth : OAuthAuthenticator) (w : ResponseWriter) (r : Http.Request) :
  Http.FormValue r "error" <> "access_denied" ->
  Http.Form r !! "code" = None ->
  trace (HandlerFunc g auth probe_success probe_failure w r) = [Rejected OAuthInvalidCodeErr w r].
Proof.
  intros Hnot Hcode. rewrite HandlerFunc_exchanges by assumption.
  unfold Http.FormValue at 1, Url.Get. rewrite Hcode. reflexivity.
Qed.

(** X12: the client of the exchange: the one the generator builds for the
    request; [http.DefaultClient] when the authenticator has no generator,
    and also when the generator returns no client. *)
Theorem HandlerFunc_client
  (g : Globals) (auth : OAuthAuthenticator) (w : ResponseWriter) (r : Http.Request) :
  Http.FormValue r "error" <> "access_denied" ->
  Http.FormValue r "code" <> EmptyString ->
  posts (trace (HandlerFunc g auth probe_success probe_failure w r))
  = [Posted
       match RequestClientGenerator auth with
       | Some generator =>
           match generator r with
           | Some client => client
           | None => DefaultClient g
           end
       | None => DefaultClient g
       end
       (token_url g) (code_form g (Http.FormValue r "code"))].
Proof.
  intros Hnot Hcode. rewrite HandlerFunc_exchanges, trace_bind, Authorize_trace by assumption.
  destruct (String.eqb_spec (Http.FormValue r "code") EmptyString) as [|_]; [contradiction|].
  assert (Ec : chosen g (handler_client g auth r)
               = match RequestClientGenerator auth with
                 | Some generator =>
                     match generator r with
                     | Some client => client
                     | None => DefaultClient g
                     end
                 | None => DefaultClient g
                 end).
  { unfold chosen, handler_client. destruct (RequestClientGenerator auth) as [generator|];
      [now destruct (generator r) | reflexivity]. }
  rewrite Ec. now destruct (result _).
Qed.

(** *** The state in the URL *)

Lemma OAuthAuthenticator_AuthorizationURL_parts
  (g : Globals) (auth : OAuthAuthenticator) (state : string) (scope : Permission) (force : bool) :
  OAuthAuthenticator_AuthorizationURL g auth state scope force
  = authorize_url (basePath g) (ClientId g) (CallbackURL auth) scope
      +:+ (if String.eqb state EmptyString then EmptyString else "&state=" +:+ state)
      +:+ (if force then "&approval_prompt=force" else EmptyString).
Proof.
  unfold OAuthAuthenticator_AuthorizationURL. rewrite Sprintf_authorize.
  destruct (String.eqb state EmptyString), force; cbn [negb];
    rewrite ?append_empty_r, ?append_assoc; reflexivity.
Qed.

Lemma append_length (a b : string) :
  String.length (a +:+ b) = (String.length a + String.length b)%nat.
Proof. induction a as [|x a IH]; cbn; [reflexivity | now rewrite IH]. Qed.

Lemma append_cancel_l (a b c : string) : a +:+ b = a +:+ c -> b = c.
Proof. induction a as [|x a IH]; cbn; [auto | intros [= E]; auto]. Qed.

Lemma append_cancel_r (a b c : string) : a +:+ c = b +:+ c -> a = b.
Proof.
  revert b. induction a as [|x a IH]; intros [|y b] E; try reflexivity.
  - apply (f_equal String.length) in E. cbn in E. rewrite append_length in E. lia.
  - apply (f_equal String.length) in E. cbn in E. rewrite append_length in E. lia.
  - cbn in E. injection E as -> E. f_equal. now apply IH.
Qed.

(** X13: the state can be read back from the URL: with the other inputs the
    same, two states give the same URL only when they are the same
    state. *)
Theorem AuthorizationURL_state_injective
  (g : Globals) (auth : OAuthAuthenticator) (state state' : string) (scope : Permission)
  (force : bool) :
  OAuthAuthenticator_AuthorizationURL g auth state scope force
  = OAuthAuthenticator_AuthorizationURL g auth state' scope force
  <-> state = state'.
Proof.
  split; [|now intros ->].
  rewrite !OAuthAuthenticator_AuthorizationURL_parts. intros E.
  apply append_cancel_l, append_cancel_r in E.
  destruct (String.eqb_spec state EmptyString) as [->|_],
           (String.eqb_spec state' EmptyString) as [->|_];
    try reflexivity; try discriminate E.
  now apply append_cancel_l in E.
Qed.

(** X14: the state is copied into the URL unescaped: a state that ends in
    [&approval_prompt=force] gives, without [force], the URL that the state
    before it gives with [force]. *)
Theorem AuthorizationURL_state_unescaped
  (g : Globals) (auth : OAuthAuthenticator) (state : string) (scope : Permission) :
  state <> EmptyString ->
  OAuthAuthenticator_AuthorizationURL g auth (state +:+ "&approval_prompt=force") scope false
  = OAuthAuthenticator_AuthorizationURL g auth state scope true.
Proof.
  intros Hs. rewrite !OAuthAuthenticator_AuthorizationURL_parts.
  destruct (String.eqb_spec state EmptyString) as [|_]; [contradiction|].
  destruct (String.eqb_spec (state +:+ "&approval_prompt=force") EmptyString) as [E|_].
  { destruct state; [contradiction | discriminate E]. }
  now rewrite append_empty_r, !append_assoc.
Qed.

(** *** The client id in the form and in the URL *)

Lemma itoa_inj (n m : Z) : Fmt.itoa n = Fmt.itoa m -> n = m.
Proof.
  unfold Fmt.itoa. intros E. apply DecimalZ.to_int_inj.
  assert (N : forall z, Z.to_int z <> Decimal.Pos Decimal.Nil /\ Z.to_int z <> Decimal.Neg Decimal.Nil).
  { intros [|p|p]; cbn; split; try discriminate;
      intros [= C]; now apply DecimalPos.Unsigned.to_uint_nonnil in C. }
  apply (f_equal NilZero.int_of_string) in E.
  rewrite !NilZero.isi in E by apply N. now injection E.
Qed.

(** X15: the client id is written so that it can be read back: two
    configurations post the same [client_id] only when their client ids are
    the same number, and, with the same base path, give the same
    authorization URL only when their client ids are the same. *)
Theorem client_id_read_back
  (g g' : Globals) (values values' : Values) (auth : OAuthAuthenticator) (state : string)
  (scope : Permission) (force : bool) :
  (fst (fst (result (ExchangeToken g values))) !! "client_id"
   = fst (fst (result (ExchangeToken g' values'))) !! "client_id"
   <-> ClientId g = ClientId g')
  /\ (basePath g = basePath g' ->
      OAuthAuthenticator_AuthorizationURL g auth state scope force
      = OAuthAuthenticator_AuthorizationURL g' auth state scope force
      <-> ClientId g = ClientId g').
Proof.
  split.
  - assert (L : forall h v, fst (fst (result (ExchangeToken h v))) !! "client_id"
                          = Some [Fmt.itoa (ClientId h)]).
    { intros h v. rewrite ExchangeToken_form. unfold exchange_form.
      now rewrite lookup_insert_ne, lookup_insert_eq. }
    rewrite !L. split; [intros [= E]; now apply itoa_inj | now intros ->].
  - intros Hbp. rewrite !OAuthAuthenticator_AuthorizationURL_parts.
    unfold authorize_url. rewrite <- Hbp.
    split; [|now intros ->]. intros E.
    rewrite !append_assoc in E.
    apply append_cancel_l, append_cancel_l, append_cancel_r in E. now apply itoa_inj.
Qed.

End OAuth.

(** ** Concrete runs

    The functions at the types of the test doubles. *)
Abbreviation Authorize_ := (Authorize (AthleteSummary := Fixture.Athlete) (ResponseWriter := unit)).
Abbreviation ExchangeToken_ :=
  (ExchangeToken (AthleteSummary := Fixture.Athlete) (ResponseWriter := unit)).
Abbreviation HandlerFunc_ :=
  (HandlerFunc (AthleteSummary := Fixture.Athlete) (ResponseWriter := unit)).

(* C1, the claim as stated fails: this body does not decode without an
   error (its second error detail is a number), yet the first detail was
   stored, and [Authorize] answers [OAuthInvalidCredentialsErr], not the
   [OAuthServerErr] of an empty error list. *)
Lemma Authorize_keeps_details_of_a_mistyped_body :
  snd (Json.Unmarshal (Json.text "{'errors':[{'resource':'Application'},5]}") (Json.zero : Error.t))
  = Some (Json.UnmarshalTypeError "number")
  /\ result (Authorize_ Fixture.globals Fixture.authenticator "code"
               (Some (Fixture.respond 400 "{'errors':[{'resource':'Application'},5]}")))
     = inr OAuthInvalidCredentialsErr
  /\ OAuthInvalidCredentialsErr <> OAuthServerErr.
Proof. split; [|split]; [vm_compute; reflexivity | vm_compute; reflexivity | discriminate]. Qed.

(* C1, the amended claim on a 401 that names the request token. *)
Lemma Authorize_failed_response_witness :
  result (Authorize_ Fixture.globals Fixture.authenticator "code"
            (Some (Fixture.respond 401
                     "{'message':'Authorization Error','errors':[{'resource':'RequestToken','field':'code','code':'invalid'}]}")))
  = inr OAuthInvalidCodeErr.
Proof.
  exact (proj1 (Authorize_failed_response Fixture.globals Fixture.authenticator "code"
     (Some (Fixture.respond 401
              "{'message':'Authorization Error','errors':[{'resource':'RequestToken','field':'code','code':'invalid'}]}"))
     {| Http.StatusCode := 401;
        Http.Body := Json.text "{'message':'Authorization Error','errors':[{'resource':'RequestToken','field':'code','code':'invalid'}]}" |}
     ltac:(discriminate) eq_refl ltac:(cbn; lia))).
Defined.

(* C2 on a 200 with a well-formed body. *)
Lemma Authorize_success_response_witness :
  result (Authorize_ Fixture.globals Fixture.authenticator "code"
            (Some (Fixture.respond 200
                     "{'access_token':'at','refresh_token':'rt','expires_at':1700000000,'expires_in':21600,'athlete':{'id':7,'firstname':'Ada'}}")))
  = inl {| AccessToken := "at"; RefreshToken := "rt"; ExpiresAt := 1700000000; ExpiresIn := 21600;
           Athlete := {| Fixture.Id := 7; Fixture.FirstName := "Ada" |}; State := EmptyString |}.
Proof.
  exact (proj1 (Authorize_success_response Fixture.globals Fixture.authenticator "code"
     (Some (Fixture.respond 200
              "{'access_token':'at','refresh_token':'rt','expires_at':1700000000,'expires_in':21600,'athlete':{'id':7,'firstname':'Ada'}}"))
     {| Http.StatusCode := 200;
        Http.Body := Json.text "{'access_token':'at','refresh_token':'rt','expires_at':1700000000,'expires_in':21600,'athlete':{'id':7,'firstname':'Ada'}}" |}
     ltac:(discriminate) eq_refl ltac:(cbn; lia))).
Defined.

(** C4: on a 400 whose body names the application, [ExchangeToken] returns
    the one error it has for every failed response, where [Authorize]
    returns [OAuthInvalidCredentialsErr]. *)
Theorem ExchangeToken_drops_the_error_details :
  let g := {| ClientId := 42; ClientSecret := "s3cr3t"; basePath := "https://www.strava.com/api/v3";
              DefaultClient := Fixture.respond 400 "{'errors':[{'resource':'Application'}]}" |} in
  snd (result (ExchangeToken_ g ∅)) = inr (errors_New "Strava API error")
  /\ result (Authorize_ g Fixture.authenticator "code" None) = inr OAuthInvalidCredentialsErr.
Proof. split; vm_compute; reflexivity. Qed.

(* C5 on the callback of a user who declined. *)
Lemma HandlerFunc_access_denied_witness :
  trace (HandlerFunc_ Fixture.globals Fixture.authenticator probe_success probe_failure tt
           Fixture.declined)
  = [Rejected OAuthAuthorizationDeniedErr tt Fixture.declined].
Proof.
  exact (proj1 (proj2 (HandlerFunc_access_denied Fixture.globals Fixture.authenticator
     probe_success probe_failure tt Fixture.declined ltac:(vm_compute; reflexivity)))).
Defined.

(* C6 on the callback of a user who consented, with [state=abc123]. *)
Lemma HandlerFunc_success_sets_State_witness :
  trace (HandlerFunc_ Fixture.globals Fixture.generating probe_success probe_failure tt
           Fixture.consented)
  = [Posted (Fixture.respond 200 Fixture.token_body) (token_url Fixture.globals)
       (code_form Fixture.globals "abc");
     Succeeded
       {| AccessToken := "at"; RefreshToken := "rt"; ExpiresAt := 1700000000; ExpiresIn := 21600;
          Athlete := {| Fixture.Id := 7; Fixture.FirstName := "Ada" |}; State := "abc123" |}
       tt Fixture.consented].
Proof.
  refine (eq_trans (proj2 (proj1 (HandlerFunc_success_sets_State Fixture.globals Fixture.generating
     probe_success probe_failure tt Fixture.consented
     {| AccessToken := "at"; RefreshToken := "rt"; ExpiresAt := 1700000000; ExpiresIn := 21600;
        Athlete := {| Fixture.Id := 7; Fixture.FirstName := "Ada" |}; State := EmptyString |}
     ltac:(vm_compute; discriminate) ltac:(vm_compute; reflexivity)))) _).
  vm_compute. reflexivity.
Defined.

(* C8, the claim as stated fails: a secret that the fixed text of the URL
   spells occurs in the URL of both builders. *)
Lemma a_secret_may_occur_in_the_URL :
  Str.contains "code"
    (OAuthAuthenticator_AuthorizationURL (with_secret "code" Fixture.globals) Fixture.authenticator
       EmptyString Permissions.Public false) = true
  /\ AuthorizationURL (with_secret "code" Fixture.globals) "https://app.example/exchange"
       Permissions.Public
     = inl "https://www.strava.com/api/v3/oauth/authorize?client_id=42&response_type=code&redirect_uri=https://app.example/exchange&scope=public"%string.
Proof. split; vm_compute; reflexivity. Qed.

(* C9, the claim as stated fails: nothing was asked for, and [state]
   occurs in the URL, inside the callback URL; and [scope] occurs twice
   when the callback URL has it. *)
Lemma a_callback_URL_may_hold_a_parameter_name :
  AuthorizationURL Fixture.globals "https://app.example/state" Permissions.Public
  = inl "https://www.strava.com/api/v3/oauth/authorize?client_id=42&response_type=code&redirect_uri=https://app.example/state&scope=public"%string
  /\ Str.occ "state"
       "https://www.strava.com/api/v3/oauth/authorize?client_id=42&response_type=code&redirect_uri=https://app.example/state&scope=public"
     = 1%nat
  /\ Str.occ "scope"
       (OAuthAuthenticator_AuthorizationURL Fixture.globals
          {| CallbackURL := "https://app.example/cb?scope=1"; RequestClientGenerator := None |}
          EmptyString Permissions.Public false)
     = 2%nat.
Proof. split; [|split]; vm_compute; reflexivity. Qed.

(* C9, the amended claim on the fixture: no name occurs in the base path,
   the callback URL or the scope. *)
Lemma AuthorizationURL_name_counts_witness :
  AuthorizationURL Fixture.globals (CallbackURL Fixture.authenticator) Permissions.Public
  = inl (OAuthAuthenticator_AuthorizationURL Fixture.globals Fixture.authenticator EmptyString
           Permissions.Public false)
  /\ Str.occ "client_id"
       (OAuthAuthenticator_AuthorizationURL Fixture.globals Fixture.authenticator EmptyString
          Permissions.Public false) = 1%nat
  /\ Str.occ "redirect_uri"
       (OAuthAuthenticator_AuthorizationURL Fixture.globals Fixture.authenticator EmptyString
          Permissions.Public false) = 1%nat
  /\ Str.occ "scope"
       (OAuthAuthenticator_AuthorizationURL Fixture.globals Fixture.authenticator EmptyString
          Permissions.Public false) = 1%nat
  /\ Str.occ "state"
       (OAuthAuthenticator_AuthorizationURL Fixture.globals Fixture.authenticator EmptyString
          Permissions.Public false) = 0%nat
  /\ Str.occ "approval_prompt"
       (OAuthAuthenticator_AuthorizationURL Fixture.globals Fixture.authenticator EmptyString
          Permissions.Public false) = 0%nat.
Proof.
  exact (AuthorizationURL_name_counts Fixture.globals Fixture.authenticator Permissions.Public
           ltac:(cbn; lia) ltac:(discriminate) ltac:(discriminate)).
Defined.

(* C7 on an unset client id, and on the fixture. *)
Lemma AuthorizationURL_fails_iff_witness :
  is_ConfigurationError
    (AuthorizationURL {| ClientId := 0; ClientSecret := "s3cr3t";
                         basePath := "https://www.strava.com/api/v3";
                         DefaultClient := Fixture.offline |}
       "https://app.example/exchange" Permissions.Public)
  /\ AuthorizationURL Fixture.globals "https://app.example/exchange" Permissions.All
     = inl "https://www.strava.com/api/v3/oauth/authorize?client_id=42&response_type=code&redirect_uri=https://app.example/exchange&scope=read,read_all,profile:read_all,profile:write,activity:read,activity:read_all,activity:write"%string.
Proof.
  split.
  - exact (proj2 (proj1 (AuthorizationURL_fails_iff
             {| ClientId := 0; ClientSecret := "s3cr3t"; basePath := "https://www.strava.com/api/v3";
                DefaultClient := Fixture.offline |}
             "https://app.example/exchange" Permissions.Public))
           (or_introl (Z.le_refl 0))).
  - exact (proj2 (AuthorizationURL_fails_iff Fixture.globals "https://app.example/exchange"
             Permissions.All)
           ltac:(intros [C|[C|C]]; [cbn in C; lia | discriminate C | discriminate C])).
Defined.

(* X1 on a form that comes with credentials of its own. *)
Lemma ExchangeToken_sets_credentials_witness :
  fst (fst (result (ExchangeToken_ Fixture.globals Fixture.forged))) !! "client_id" = Some ["42"]
  /\ fst (fst (result (ExchangeToken_ Fixture.globals Fixture.forged))) !! "client_secret"
     = Some ["s3cr3t"]
  /\ fst (fst (result (ExchangeToken_ Fixture.globals Fixture.forged))) !! "grant_type"
     = Some ["authorization_code"].
Proof.
  pose proof (ExchangeToken_sets_credentials (H := Fixture.Athlete_decodable) (ResponseWriter := unit)
                Fixture.globals Fixture.forged) as (_ & Hid & Hsecret & Hrest).
  split; [exact Hid | split; [exact Hsecret|]].
  refine (eq_trans (Hrest "grant_type" ltac:(discriminate) ltac:(discriminate)) _).
  vm_compute. reflexivity.
Defined.

(* X3 on a default client that gets a token. *)
Lemma ExchangeToken_code_grant_witness :
  snd (result (ExchangeToken_ (Fixture.answering (Fixture.respond 200 Fixture.token_body))
                 Fixture.grant))
  = result (Authorize_ (Fixture.answering (Fixture.respond 200 Fixture.token_body))
              Fixture.authenticator "abc" None).
Proof.
  exact (proj2 (ExchangeToken_code_grant (H := Fixture.Athlete_decodable) (ResponseWriter := unit)
                  (Fixture.answering (Fixture.respond 200 Fixture.token_body))
                  Fixture.authenticator "abc" ltac:(discriminate))
           ltac:(cbn; lia)).
Defined.

(* X4 on a 503. *)
Lemma ExchangeToken_failed_response_witness :
  snd (result (ExchangeToken_ (Fixture.answering (Fixture.respond 503 "Service Unavailable"))
                 Fixture.grant))
  = inr (errors_New "Strava API error").
Proof.
  exact (f_equal snd
           (ExchangeToken_failed_response (H := Fixture.Athlete_decodable) (ResponseWriter := unit)
              (Fixture.answering (Fixture.respond 503 "Service Unavailable")) Fixture.grant
              {| Http.StatusCode := 503; Http.Body := Json.text "Service Unavailable" |}
              eq_refl ltac:(cbn; lia))).
Defined.

(* X5 on a default client that gets a token. *)
Lemma ExchangeToken_success_only_from_2xx_witness :
  exists resp,
    Http.PostForm (Fixture.respond 200 Fixture.token_body)
      (token_url (Fixture.answering (Fixture.respond 200 Fixture.token_body)))
      (exchange_form (Fixture.answering (Fixture.respond 200 Fixture.token_body)) Fixture.grant)
    = Http.Ok resp
    /\ 200 <= Http.StatusCode resp <= 299
    /\ Json.Unmarshal (Http.Body resp) Json.zero
       = ({| AccessToken := "at"; RefreshToken := "rt"; ExpiresAt := 1700000000;
             ExpiresIn := 21600;
             Athlete := {| Fixture.Id := 7; Fixture.FirstName := "Ada" |};
             State := EmptyString |}, None)
    /\ snd (fst (result (ExchangeToken_ (Fixture.answering (Fixture.respond 200 Fixture.token_body))
                           Fixture.grant)))
       = Some resp.
Proof.
  exact (ExchangeToken_success_only_from_2xx (H := Fixture.Athlete_decodable) (ResponseWriter := unit)
           (Fixture.answering (Fixture.respond 200 Fixture.token_body)) Fixture.grant
           {| AccessToken := "at"; RefreshToken := "rt"; ExpiresAt := 1700000000;
              ExpiresIn := 21600;
              Athlete := {| Fixture.Id := 7; Fixture.FirstName := "Ada" |};
              State := EmptyString |}
           ltac:(vm_compute; reflexivity)).
Defined.

(* X6 on a transport that reaches no server. *)
Lemma exchange_transport_failure_witness :
  Authorize_ Fixture.globals Fixture.authenticator "abc" None
  = (inr (TransportError "dial tcp: no route to host"),
     [Posted Fixture.offline (token_url Fixture.globals) (code_form Fixture.globals "abc")]).
Proof.
  exact (proj2 (exchange_transport_failure (H := Fixture.Athlete_decodable) (ResponseWriter := unit)
                  Fixture.globals Fixture.authenticator "abc" None Fixture.grant)
           None "dial tcp: no route to host"%string ltac:(discriminate) eq_refl).
Defined.

(* X7 on a 404 about an athlete. *)
Lemma Authorize_error_kinds_witness :
  exists first rest,
    Error.Errors Fixture.not_found = first :: rest
    /\ ErrorDetailed.Resource first <> "Application"
    /\ ErrorDetailed.Resource first <> "RequestToken".
Proof.
  exact (Authorize_error_kinds (H := Fixture.Athlete_decodable) (ResponseWriter := unit)
           Fixture.globals Fixture.authenticator "abc"
           (Some (Fixture.respond 404 Fixture.not_found_body)) (ApiError Fixture.not_found)
           ltac:(vm_compute; reflexivity)).
Defined.

(* X8 on a client that gets a token. *)
Lemma Authorize_success_only_from_2xx_witness :
  "abc"%string <> EmptyString
  /\ exists resp,
       Http.PostForm (Fixture.respond 200 Fixture.token_body) (token_url Fixture.globals)
         (code_form Fixture.globals "abc")
       = Http.Ok resp
       /\ 200 <= Http.StatusCode resp <= 299
       /\ Json.Unmarshal (Http.Body resp) Json.zero
          = ({| AccessToken := "at"; RefreshToken := "rt"; ExpiresAt := 1700000000;
                ExpiresIn := 21600;
                Athlete := {| Fixture.Id := 7; Fixture.FirstName := "Ada" |};
                State := EmptyString |}, None).
Proof.
  exact (Authorize_success_only_from_2xx (H := Fixture.Athlete_decodable) (ResponseWriter := unit)
           Fixture.globals Fixture.authenticator "abc"
           (Some (Fixture.respond 200 Fixture.token_body))
           {| AccessToken := "at"; RefreshToken := "rt"; ExpiresAt := 1700000000;
              ExpiresIn := 21600;
              Athlete := {| Fixture.Id := 7; Fixture.FirstName := "Ada" |};
              State := EmptyString |}
           ltac:(vm_compute; reflexivity)).
Defined.

(* X9 on the callback of a user who consented, with no server in reach. *)
Lemma HandlerFunc_failure_witness :
  trace (HandlerFunc_ Fixture.globals Fixture.authenticator probe_success probe_failure tt
           Fixture.consented)
  = [Posted Fixture.offline (token_url Fixture.globals) (code_form Fixture.globals "abc");
     Rejected (TransportError "dial tcp: no route to host") tt Fixture.consented].
Proof.
  refine (eq_trans (proj2 (HandlerFunc_failure (H := Fixture.Athlete_decodable) (ResponseWriter := unit)
     Fixture.globals Fixture.authenticator probe_success probe_failure tt Fixture.consented
     (TransportError "dial tcp: no route to host")
     ltac:(vm_compute; discriminate) ltac:(vm_compute; reflexivity))) _).
  vm_compute. reflexivity.
Defined.

(* X11 on a callback without a code. *)
Lemma HandlerFunc_missing_code_witness :
  trace (HandlerFunc_ Fixture.globals Fixture.generating probe_success probe_failure tt
           Fixture.codeless)
  = [Rejected OAuthInvalidCodeErr tt Fixture.codeless].
Proof.
  exact (HandlerFunc_missing_code (H := Fixture.Athlete_decodable) (ResponseWriter := unit)
           Fixture.globals Fixture.generating tt Fixture.codeless
           ltac:(vm_compute; discriminate) ltac:(vm_compute; reflexivity)).
Defined.

(* X12 on a generator that builds no client. *)
Lemma HandlerFunc_client_witness :
  posts (trace (HandlerFunc_ Fixture.globals Fixture.unable probe_success probe_failure tt
                  Fixture.consented))
  = [Posted Fixture.offline (token_url Fixture.globals) (code_form Fixture.globals "abc")].
Proof.
  refine (eq_trans (HandlerFunc_client (H := Fixture.Athlete_decodable) (ResponseWriter := unit)
     Fixture.globals Fixture.unable tt Fixture.consented
     ltac:(vm_compute; discriminate) ltac:(vm_compute; discriminate)) _).
  vm_compute. reflexivity.
Defined.

(* X14 on the state [abc123]. *)
Lemma AuthorizationURL_state_unescaped_witness :
  OAuthAuthenticator_AuthorizationURL Fixture.globals Fixture.authenticator
    "abc123&approval_prompt=force" Permissions.Public false
  = OAuthAuthenticator_AuthorizationURL Fixture.globals Fixture.authenticator
      "abc123" Permissions.Public true.
Proof.
  exact (AuthorizationURL_state_unescaped Fixture.globals Fixture.authenticator "abc123"
           Permissions.Public ltac:(discriminate)).
Defined.
